(** * Weather plugin: a shallow embedding of [weather.py]

    The plugin watches chat text for a weather keyword, extracts a city
    name with two regular expressions, resolves it through a geocoding
    endpoint, fetches the current weather and formats a reply.

    The development follows the source file top-down:
    - [Text]    Python [str] values as lists of code points;
    - [Re]      the fragment of Python's [re] the two patterns use
                (backtracking matcher, [search], [sub]);
    - [Py]      JSON-shaped Python values, exceptions and the dynamic
                operations the plugin applies to them;
    - [Weather] the methods of [WeatherPlugin], one definition each;
    - the vocabulary of the properties and a few concrete hosts, events
      and payloads;
    - the properties: the matcher and mention stripping, the message
      handler, the formatter, the two clients, and the report on a
      well-formed payload. *)

From Stdlib Require Import ZArith NArith List String Ascii Bool Lia.
From Stdlib Require Import Floats.SpecFloat.
From Stdlib Require DecimalString DecimalPos.
Import ListNotations.

Set Implicit Arguments.

(* ================================================================== *)
(** ** Text *)

Module Text.

(** A Python [str] is a sequence of Unicode code points. *)
Definition codepoint := N.
Definition pystr := list codepoint.

(** String literals of the source are written as UTF-8 and decoded. *)
Fixpoint decode (need : nat) (acc : N) (s : string) : pystr :=
  match s with
  | EmptyString => []
  | String a s' =>
      let b := N_of_ascii a in
      match need with
      | O =>
          if (b <? 128)%N then b :: decode 0 0 s'
          else if (b <? 224)%N then decode 1 (b - 192) s'
          else if (b <? 240)%N then decode 2 (b - 224) s'
          else decode 3 (b - 240) s'
      | S O => (acc * 64 + (b - 128))%N :: decode 0 0 s'
      | S n => decode n (acc * 64 + (b - 128))%N s'
      end
  end.

Definition lit (s : string) : pystr := decode 0 0 s.

Fixpoint pystr_eqb (a b : pystr) : bool :=
  match a, b with
  | [], [] => true
  | x :: a', y :: b' => N.eqb x y && pystr_eqb a' b'
  | _, _ => false
  end.

(** [prefix p s]: [s.startswith(p)]. *)
Fixpoint prefix (p s : pystr) : bool :=
  match p, s with
  | [], _ => true
  | x :: p', y :: s' => N.eqb x y && prefix p' s'
  | _ :: _, [] => false
  end.

(** [contains p s]: the substring test [p in s]. *)
Fixpoint contains (p s : pystr) : bool :=
  prefix p s || match s with [] => false | _ :: s' => contains p s' end.

(** The two character predicates of the Unicode database that the
    patterns and [str.strip] consult: [\w] ([str.isalnum] or ['_']) and
    [\s] ([str.isspace]). *)
Class Unicode := {
  is_word : codepoint -> bool;
  is_space : codepoint -> bool
}.

Definition in_range (lo hi c : N) : bool := (lo <=? c)%N && (c <=? hi)%N.

(** The database restricted to ASCII and the CJK unified ideographs: every
    other code point is classified as neither. *)
Definition basic_unicode : Unicode := {|
  is_word c :=
    in_range 48 57 c || in_range 65 90 c || in_range 97 122 c
    || N.eqb c 95 || in_range 19968 40959 c;
  is_space c := in_range 9 13 c || in_range 28 32 c
|}.

(** [str.strip()] *)
Fixpoint lstrip `{Unicode} (s : pystr) : pystr :=
  match s with
  | c :: s' => if is_space c then lstrip s' else s
  | [] => []
  end.

Definition strip `{Unicode} (s : pystr) : pystr :=
  rev (lstrip (rev (lstrip s))).

End Text.
Import Text.

(* ================================================================== *)
(** ** Regular expressions *)

Module Re.

(** The constructs that occur in [LOCATION_PATTERN] and
    [MENTION_PATTERN], and the empty pattern.  Quantifiers are greedy;
    [(?:...)] needs no constructor of its own. *)
Inductive regex :=
| Eps
| Chr (c : codepoint)
| Class (p : codepoint -> bool)
| Seq (r1 r2 : regex)
| Alt (r1 r2 : regex)
| Star (r : regex)
| Group (n : nat) (r : regex).

Definition Plus (r : regex) : regex := Seq r (Star r).

Fixpoint Str (s : pystr) (r : regex) : regex :=
  match s with
  | [] => r
  | c :: s' => Seq (Chr c) (Str s' r)
  end.

(** Spans of the capturing groups, most recent first. *)
Definition caps := list (nat * (nat * nat)).

Definition cont := nat -> pystr -> caps -> option (nat * caps).

(** The loop of a greedy star: one more iteration [step] is tried first,
    the continuation [k] when that fails.  An iteration that consumes
    nothing ends the loop, so the length of the text bounds the number of
    iterations. *)
Fixpoint star_loop
  (step : nat -> pystr -> caps -> cont -> option (nat * caps)) (k : cont)
  (fuel i : nat) (s : pystr) (g : caps) : option (nat * caps) :=
  match fuel with
  | O => k i s g
  | S fuel' =>
      match step i s g
              (fun i' s' g' =>
                 if Nat.ltb i i' then star_loop step k fuel' i' s' g'
                 else None)
      with
      | Some x => Some x
      | None => k i s g
      end
  end.

(** The backtracking matcher in continuation-passing style: [i] is the
    current position, [s] the text from there on.  An alternative or a
    further iteration of a star is abandoned when the continuation
    fails. *)
Fixpoint m (r : regex) (i : nat) (s : pystr) (g : caps) (k : cont)
  : option (nat * caps) :=
  match r with
  | Eps => k i s g
  | Chr c =>
      match s with
      | x :: s' => if N.eqb x c then k (S i) s' g else None
      | [] => None
      end
  | Class p =>
      match s with
      | x :: s' => if p x then k (S i) s' g else None
      | [] => None
      end
  | Seq r1 r2 => m r1 i s g (fun i' s' g' => m r2 i' s' g' k)
  | Alt r1 r2 =>
      match m r1 i s g k with
      | Some x => Some x
      | None => m r2 i s g k
      end
  | Star r1 => star_loop (m r1) k (List.length s) i s g
  | Group n r1 => m r1 i s g (fun i' s' g' => k i' s' ((n, (i, i')) :: g'))
  end.

Definition accept : cont := fun i _ g => Some (i, g).

(** [pattern.match] at position [i]: end of the match and its groups. *)
Definition match_at (r : regex) (i : nat) (s : pystr) : option (nat * caps) :=
  m r i s [] accept.

(** A match object: the searched string, start, end and group spans. *)
Record match_obj := {
  m_string : pystr;
  m_start : nat;
  m_end : nat;
  m_caps : caps
}.

(** [pattern.search]: the match at the leftmost position that has one;
    [s] is what is left of [text] from position [i] on. *)
Fixpoint search_from (r : regex) (text : pystr) (i : nat) (s : pystr)
  : option match_obj :=
  match match_at r i s with
  | Some (j, g) =>
      Some {| m_string := text; m_start := i; m_end := j; m_caps := g |}
  | None =>
      match s with
      | [] => None
      | _ :: s' => search_from r text (S i) s'
      end
  end.

Definition search (r : regex) (s : pystr) : option match_obj :=
  search_from r s 0 s.

Fixpoint span (g : caps) (n : nat) : option (nat * nat) :=
  match g with
  | [] => None
  | (n', sp) :: g' => if Nat.eqb n n' then Some sp else span g' n
  end.

(** [match.group(n)]: [None] for a group that did not take part in the
    match. *)
Definition group (mo : match_obj) (n : nat) : option pystr :=
  match span (m_caps mo) n with
  | Some (a, b) => Some (firstn (b - a) (skipn a (m_string mo)))
  | None => None
  end.

(** [pattern.sub(repl, s)]: every leftmost non-overlapping match is
    replaced by [repl]; [skip] counts the characters of the current match
    that are still to be dropped. *)
Fixpoint sub_from (r : regex) (repl : pystr) (skip i : nat) (s : pystr)
  {struct s} : pystr :=
  match skip with
  | S k =>
      match s with
      | [] => []
      | _ :: s' => sub_from r repl k (S i) s'
      end
  | O =>
      match match_at r i s with
      | Some (j, _) =>
          repl ++
          match s with
          | [] => []
          | c :: s' =>
              if Nat.eqb j i then c :: sub_from r repl 0 (S i) s'
              else sub_from r repl (j - i - 1) (S i) s'
          end
      | None =>
          match s with
          | [] => []
          | c :: s' => c :: sub_from r repl 0 (S i) s'
          end
      end
  end.

Definition sub (r : regex) (repl s : pystr) : pystr := sub_from r repl 0 0 s.

End Re.

Section Patterns.
Context `{Unicode}.

(** [[一-龥a-zA-Z]] *)
Definition city_letter (c : codepoint) : bool :=
  in_range 19968 40869 c || in_range 97 122 c || in_range 65 90 c.

(** [[一-龥a-zA-Z]+(?:\s+[一-龥a-zA-Z]+)*] *)
Definition city_phrase : Re.regex :=
  Re.Seq (Re.Plus (Re.Class city_letter))
         (Re.Star (Re.Seq (Re.Plus (Re.Class is_space))
                          (Re.Plus (Re.Class city_letter)))).

(** [(?:天气|weather)] followed by [r] *)
Definition keyword_then (r : Re.regex) : Re.regex :=
  Re.Alt (Re.Str (lit "天气") r) (Re.Str (lit "weather") r).

Definition LOCATION_PATTERN : Re.regex :=
  Re.Alt
    (Re.Seq (Re.Group 1 city_phrase) (keyword_then Re.Eps))
    (keyword_then (Re.Seq (Re.Star (Re.Class is_space))
                          (Re.Group 2 city_phrase))).

(** [@\w+\s*] *)
Definition MENTION_PATTERN : Re.regex :=
  Re.Seq (Re.Chr 64%N)
         (Re.Seq (Re.Plus (Re.Class is_word)) (Re.Star (Re.Class is_space))).

Definition strip_mentions (text : pystr) : pystr :=
  Re.sub MENTION_PATTERN [] text.

End Patterns.

(* ================================================================== *)
(** ** Python values *)

Module Py.

(** The exception classes that the operations below raise or that the
    [except] clauses of the plugin name. *)
Inductive exn :=
| ValueError
| JSONDecodeError
| KeyError
| IndexError
| TypeError
| AttributeError
| OverflowError
| ClientError
| ContentTypeError
| OSError
| CancelledError.

Definition exn_eqb (a b : exn) : bool :=
  match a, b with
  | ValueError, ValueError | JSONDecodeError, JSONDecodeError
  | KeyError, KeyError | IndexError, IndexError | TypeError, TypeError
  | AttributeError, AttributeError | OverflowError, OverflowError
  | ClientError, ClientError | ContentTypeError, ContentTypeError
  | OSError, OSError | CancelledError, CancelledError => true
  | _, _ => false
  end.

(** [issubclass e c]: [json.JSONDecodeError] derives from [ValueError],
    [aiohttp.ContentTypeError] from [aiohttp.ClientError]; the other
    classes are related only to themselves. *)
Definition issubclass (e c : exn) : bool :=
  exn_eqb e c ||
  match e, c with
  | JSONDecodeError, ValueError => true
  | ContentTypeError, ClientError => true
  | _, _ => false
  end.

Inductive outcome (A : Type) :=
| Return (a : A)
| Raise (e : exn).
Arguments Return {A} a.
Arguments Raise {A} e.

Definition bind {A B} (o : outcome A) (f : A -> outcome B) : outcome B :=
  match o with
  | Return a => f a
  | Raise e => Raise e
  end.

(** [try: o  except classes: h] *)
Definition try_except {A} (o : outcome A) (classes : list exn)
  (h : exn -> outcome A) : outcome A :=
  match o with
  | Return a => Return a
  | Raise e => if existsb (issubclass e) classes then h e else Raise e
  end.

(** A Python [float] is an IEEE 754 binary64 number. *)
Definition float := spec_float.
Definition prec : Z := 53.
Definition emax : Z := 1024.

(** The values [json.loads] produces. *)
#[warnings="-register-all"]
Inductive pyval :=
| PyNone
| PyBool (b : bool)
| PyInt (n : Z)
| PyFloat (f : float)
| PyStr (s : pystr)
| PyList (l : list pyval)
| PyDict (d : list (pystr * pyval)).

Fixpoint lookup (k : pystr) (d : list (pystr * pyval)) : option pyval :=
  match d with
  | [] => None
  | (k', v) :: d' => if pystr_eqb k k' then Some v else lookup k d'
  end.

(** [bool(v)] *)
Definition truthy (v : pyval) : bool :=
  match v with
  | PyNone => false
  | PyBool b => b
  | PyInt n => negb (Z.eqb n 0)
  | PyFloat f =>
      match f with
      | S754_zero _ => false
      | _ => true
      end
  | PyStr s => match s with [] => false | _ => true end
  | PyList l => match l with [] => false | _ => true end
  | PyDict d => match d with [] => false | _ => true end
  end.

(** [v[k]] for a string key [k] *)
Definition getitem (v : pyval) (k : pystr) : outcome pyval :=
  match v with
  | PyDict d =>
      match lookup k d with
      | Some x => Return x
      | None => Raise KeyError
      end
  | _ => Raise TypeError
  end.

(** [v[0]]: the keys of a JSON object are strings, so a dict has no key
    [0]. *)
Definition getitem0 (v : pyval) : outcome pyval :=
  match v with
  | PyList l =>
      match l with
      | x :: _ => Return x
      | [] => Raise IndexError
      end
  | PyStr s =>
      match s with
      | c :: _ => Return (PyStr [c])
      | [] => Raise IndexError
      end
  | PyDict _ => Raise KeyError
  | _ => Raise TypeError
  end.

(** [d.get(k, default)] on a dict *)
Definition dict_get (d : list (pystr * pyval)) (k : pystr) (default : pyval)
  : pyval :=
  match lookup k d with
  | Some x => x
  | None => default
  end.

(** [v.get(k, default)]: only a dict has the method. *)
Definition get (v : pyval) (k : pystr) (default : pyval) : outcome pyval :=
  match v with
  | PyDict d => Return (dict_get d k default)
  | _ => Raise AttributeError
  end.

(** [k in v] for a string [k] *)
Definition contains_str (k : pystr) (v : pyval) : outcome bool :=
  match v with
  | PyStr s => Return (contains k s)
  | PyList l =>
      Return (existsb (fun x => match x with
                                | PyStr s => pystr_eqb k s
                                | _ => false
                                end) l)
  | PyDict d =>
      Return (match lookup k d with Some _ => true | None => false end)
  | _ => Raise TypeError
  end.

(** *** Numbers *)

Definition float_of_Z (n : Z) : float :=
  match n with
  | Z0 => S754_zero false
  | Zpos p => S754_finite false p 0
  | Zneg p => S754_finite true p 0
  end.

(** [a / b] on two ints: the quotient correctly rounded to binary64,
    [OverflowError] when it is out of range. *)
Definition int_truediv (a b : Z) : outcome float :=
  match SFdiv prec emax (float_of_Z a) (float_of_Z b) with
  | S754_infinity _ => Raise OverflowError
  | f => Return f
  end.

Definition float_1000 : float := binary_normalize prec emax 1000 0 false.

(** [v / 1000] *)
Definition truediv_1000 (v : pyval) : outcome pyval :=
  match v with
  | PyInt n => bind (int_truediv n 1000) (fun f => Return (PyFloat f))
  | PyBool b =>
      bind (int_truediv (if b then 1 else 0) 1000)
           (fun f => Return (PyFloat f))
  | PyFloat f => Return (PyFloat (SFdiv prec emax f float_1000))
  | _ => Raise TypeError
  end.

(** [v > 0] *)
Definition gt_zero (v : pyval) : outcome bool :=
  match v with
  | PyInt n => Return (0 <? n)%Z
  | PyBool b => Return b
  | PyFloat f => Return (SFltb (S754_zero false) f)
  | _ => Raise TypeError
  end.

(** The integer nearest to [m * 2^e] for [0 <= m], ties to even. *)
Definition nearest_even (m e : Z) : Z :=
  match e with
  | Zneg p =>
      let d := Z.pow 2 (Zpos p) in
      let q := Z.div m d in
      let r := Z.modulo m d in
      match Z.compare (2 * r) d with
      | Lt => q
      | Gt => q + 1
      | Eq => if Z.even q then q else q + 1
      end
  | _ => m * Z.pow 2 e
  end%Z.

(** [round(v)] with one argument *)
Definition round (v : pyval) : outcome Z :=
  match v with
  | PyInt n => Return n
  | PyBool b => Return (if b then 1 else 0)%Z
  | PyFloat f =>
      match f with
      | S754_zero _ => Return 0%Z
      | S754_finite sg mt e =>
          let n := nearest_even (Zpos mt) e in
          Return (if sg then Z.opp n else n)
      | S754_infinity _ => Raise OverflowError
      | S754_nan => Raise ValueError
      end
  | _ => Raise TypeError
  end.

Fixpoint uint_str (d : Decimal.uint) : pystr :=
  match d with
  | Decimal.Nil => []
  | Decimal.D0 d' => 48%N :: uint_str d'
  | Decimal.D1 d' => 49%N :: uint_str d'
  | Decimal.D2 d' => 50%N :: uint_str d'
  | Decimal.D3 d' => 51%N :: uint_str d'
  | Decimal.D4 d' => 52%N :: uint_str d'
  | Decimal.D5 d' => 53%N :: uint_str d'
  | Decimal.D6 d' => 54%N :: uint_str d'
  | Decimal.D7 d' => 55%N :: uint_str d'
  | Decimal.D8 d' => 56%N :: uint_str d'
  | Decimal.D9 d' => 57%N :: uint_str d'
  end.

Definition str_nat (n : N) : pystr := uint_str (N.to_uint n).

(** [str(n)] for an int *)
Definition str_int (n : Z) : pystr :=
  match n with
  | Zneg p => 45%N :: str_nat (Npos p)
  | _ => str_nat (Z.to_N n)
  end.

(** [format(f, ".1f")]: the exact value of [f] rounded to one decimal,
    ties to even. *)
Definition format_1f_float (f : float) : pystr :=
  match f with
  | S754_zero sg => (if sg then lit "-0.0" else lit "0.0")
  | S754_infinity sg => (if sg then lit "-inf" else lit "inf")
  | S754_nan => lit "nan"
  | S754_finite sg mt e =>
      let tenths := nearest_even (10 * Zpos mt) e in
      (if sg then [45%N] else []) ++
      str_nat (Z.to_N (tenths / 10)) ++ [46%N] ++
      str_nat (Z.to_N (tenths mod 10))
  end.

(** [f"{v:.1f}"] *)
Definition format_1f (v : pyval) : outcome pystr :=
  match v with
  | PyFloat f => Return (format_1f_float f)
  | PyInt n =>
      Return (format_1f_float (binary_normalize prec emax n 0 false))
  | PyBool b =>
      Return (format_1f_float
                (binary_normalize prec emax (if b then 1 else 0) 0 false))
  | PyStr _ => Raise ValueError
  | _ => Raise TypeError
  end.

(** [repr] of floats and containers is left to the runtime. *)
Class Runtime := { repr : pyval -> pystr }.

(** [f"{v}"] *)
Definition str `{Runtime} (v : pyval) : pystr :=
  match v with
  | PyStr s => s
  | PyInt n => str_int n
  | PyBool b => if b then lit "True" else lit "False"
  | PyNone => lit "None"
  | _ => repr v
  end.

(** [v += s] for a string [s]: concatenation on a string, [extend] by
    the characters of [s] on a list. *)
Definition iadd_str (v : pyval) (s : pystr) : outcome pyval :=
  match v with
  | PyStr a => Return (PyStr (a ++ s))
  | PyList l => Return (PyList (l ++ map (fun c => PyStr [c]) s))
  | _ => Raise TypeError
  end.

End Py.

Import Py.

Notation "x <- c1 ;; c2" := (bind c1 (fun x => c2))
  (at level 61, c1 at next level, right associativity).

(* ================================================================== *)
(** ** The plugin *)

(** The reply dictionary, with its three keys. *)
Record reply := {
  handled : bool;
  plugin_name : pystr;
  response : pystr
}.

(** What [WeatherPlugin] inherits from [PluginBase]: the plugin's name and
    two helpers.  [_log_plugin_action] and the [logger] calls only write
    to the log and are left out. *)
Class PluginBase := {
  name : pystr;
  _extract_username : pyval -> outcome pystr;
  _validate_plugin_response : reply -> bool
}.

(** The result of [session.get(url, params=...)]: the request fails with
    an exception, or a response arrives with a status and a body; awaiting
    [response.json()] returns the decoded body or raises. *)
Inductive http_result :=
| RequestFails (e : exn)
| Response (status : Z) (json : outcome pyval).

(** The configured key and the open [aiohttp] session, with the remote
    services behind it. *)
Class Session := {
  api_key : pystr;
  session_get : pystr -> list (pystr * pyval) -> http_result
}.

Module Weather.
Section WeatherPlugin.
Context {U : Unicode} {R : Runtime} {B : PluginBase} {S : Session}.

Definition base_url : pystr :=
  lit "https://api.openweathermap.org/data/2.5/weather".
Definition geocoding_url : pystr :=
  lit "https://api.openweathermap.org/geo/1.0/direct".

Definition nl : pystr := [10%N].

Definition parse_failed : pystr := lit "抱歉，天气数据解析失败。".

(** The six fixed lines of the report. *)
Definition weather_text
  (display_name : pyval) (temp feels_like : Z)
  (humidity description wind_speed pressure : pyval) : pystr :=
  lit "🌤️ " ++ str display_name ++ lit " 的天气:" ++ nl ++
  lit "🌡️ 温度: " ++ str_int temp ++ lit "°C (体感 " ++
    str_int feels_like ++ lit "°C)" ++ nl ++
  lit "💧 湿度: " ++ str humidity ++ lit "%" ++ nl ++
  lit "☁️ 天气: " ++ str description ++ nl ++
  lit "💨 风速: " ++ str wind_speed ++ lit " m/s" ++ nl ++
  lit "🌊 气压: " ++ str pressure ++ lit " hPa".

Definition visibility_line (km : pystr) : pystr :=
  nl ++ lit "👁️ 能见度: " ++ km ++ lit " km".

Definition _format_weather_info_v25 (data display_name : pyval)
  : outcome pystr :=
  try_except
    (main <- getitem data (lit "main") ;;
     t <- getitem main (lit "temp") ;;
     temp <- round t ;;
     f <- getitem main (lit "feels_like") ;;
     feels_like <- round f ;;
     humidity <- getitem main (lit "humidity") ;;
     pressure <- getitem main (lit "pressure") ;;
     w <- getitem data (lit "weather") ;;
     w0 <- getitem0 w ;;
     description <- getitem w0 (lit "description") ;;
     wind <- get data (lit "wind") (PyDict []) ;;
     wind_speed <- get wind (lit "speed") (PyInt 0) ;;
     c <- get data (lit "visibility") PyNone ;;
     visibility <-
       (if truthy c
        then v <- get data (lit "visibility") (PyInt 0) ;; truediv_1000 v
        else Return (PyInt 0)) ;;
     let text :=
       weather_text display_name temp feels_like
                    humidity description wind_speed pressure in
     positive <- gt_zero visibility ;;
     if positive
     then km <- format_1f visibility ;; Return (text ++ visibility_line km)
     else Return text)
    [ValueError; KeyError; TypeError]
    (fun _ => Return parse_failed).

Definition _get_coordinates (city : pystr)
  : outcome (option (pyval * pyval * pyval)) :=
  try_except
    (let params := [(lit "q", PyStr city); (lit "limit", PyInt 1);
                    (lit "appid", PyStr api_key)] in
     match session_get geocoding_url params with
     | RequestFails e => Raise e
     | Response status json =>
         if negb (Z.eqb status 200) then Return None
         else
           data <- json ;;
           if negb (truthy data) then Return None
           else
             location <- getitem0 data ;;
             display_name <- getitem location (lit "name") ;;
             has_country <- contains_str (lit "country") location ;;
             display_name <-
               (if has_country
                then country <- getitem location (lit "country") ;;
                     iadd_str display_name (lit ", " ++ str country)
                else Return display_name) ;;
             lat <- getitem location (lit "lat") ;;
             lon <- getitem location (lit "lon") ;;
             Return (Some (lat, lon, display_name))
     end)
    [ClientError; OSError; ValueError; KeyError]
    (fun _ => Return None).

Definition not_found (city : pystr) : pystr :=
  lit "抱歉，找不到城市 '" ++ city ++ lit "' 的位置信息。".
Definition unavailable : pystr := lit "抱歉，天气服务暂时不可用。".
Definition error_occurred : pystr := lit "抱歉，获取天气信息时出现错误。".

Definition _get_weather (city : pystr) : outcome (option pystr) :=
  try_except
    (coordinates <- _get_coordinates city ;;
     match coordinates with
     | None => Return (Some (not_found city))
     | Some (lat, lon, display_name) =>
         let params := [(lit "lat", lat); (lit "lon", lon);
                        (lit "appid", PyStr api_key);
                        (lit "units", PyStr (lit "metric"));
                        (lit "lang", PyStr (lit "zh_cn"))] in
         match session_get base_url params with
         | RequestFails e => Raise e
         | Response status json =>
             if Z.eqb status 200
             then data <- json ;;
                  text <- _format_weather_info_v25 data display_name ;;
                  Return (Some text)
             else Return (Some unavailable)
         end
     end)
    [ClientError; OSError; ValueError; KeyError]
    (fun _ => Return (Some error_occurred)).

Definition prompt : pystr :=
  lit "请指定要查询的城市，例如：北京天气 或 天气上海".
Definition apology (location : pystr) : pystr :=
  lit "抱歉，无法获取 " ++ location ++ lit " 的天气信息。".

(** [a or b] on an optional string *)
Definition or_else (a : option pystr) (b : pystr) : pystr :=
  match a with
  | Some (c :: s) => c :: s
  | _ => b
  end.

Definition _handle_weather_request
  (username : pystr) (location_match : option Re.match_obj)
  : outcome (option reply) :=
  let location :=
    match location_match with
    | Some mo =>
        strip (or_else (Re.group mo 1) (or_else (Re.group mo 2) []))
    | None => []
    end in
  match location with
  | [] =>
      Return (Some {| handled := true; plugin_name := name;
                      response := prompt |})
  | _ :: _ =>
      weather_info <- _get_weather location ;;
      let response :=
        {| handled := true; plugin_name := name;
           response := or_else weather_info (apology location) |} in
      Return (if _validate_plugin_response response
              then Some response else None)
  end.

(** [MENTION_PATTERN.sub("", text)]: [re] accepts only a string. *)
Definition sub_mentions (text : pyval) : outcome pystr :=
  match text with
  | PyStr s => Return (strip_mentions s)
  | _ => Raise TypeError
  end.

Definition _process_weather_message (data : pyval)
  : outcome (option reply) :=
  text <- get data (lit "text") (PyStr []) ;;
  zh <- contains_str (lit "天气") text ;;
  no_keyword <-
    (if negb zh
     then en <- contains_str (lit "weather") text ;; Return (negb en)
     else Return false) ;;
  if no_keyword then Return None
  else
    username <- _extract_username data ;;
    cleaned_text <- sub_mentions text ;;
    let location_match := Re.search LOCATION_PATTERN cleaned_text in
    _handle_weather_request username location_match.

Definition has_key (k : pystr) (d : list (pystr * pyval)) : bool :=
  match lookup k d with Some _ => true | None => false end.

(** The envelope of a mention is unwrapped. *)
Definition note_of (data : list (pystr * pyval)) : pyval :=
  if has_key (lit "note") data && has_key (lit "type") data
  then dict_get data (lit "note") (PyDict data)
  else PyDict data.

Definition on_mention (data : list (pystr * pyval))
  : outcome (option reply) :=
  try_except
    (let note_data := note_of data in
     _process_weather_message note_data)
    [ValueError; KeyError]
    (fun _ => Return None).

Definition on_message (message_data : list (pystr * pyval))
  : outcome (option reply) :=
  try_except
    (_process_weather_message (PyDict message_data))
    [ValueError; KeyError]
    (fun _ => Return None).

End WeatherPlugin.
End Weather.

(** *** Start-up *)

Module Lifecycle.

(** The attributes [__init__] sets.  The [aiohttp] session is a handle
    without content here; [_register_resource] and [_log_plugin_action]
    only keep the books of [PluginBase] and are left out. *)
Record plugin := {
  self_api_key : pyval;
  self_enabled : bool;
  self_session : option unit
}.

(** [config] is the dictionary [PluginBase] keeps as [self.config]. *)
Definition __init__ (config : list (pystr * pyval)) : plugin :=
  let key := dict_get config (lit "api_key") (PyStr []) in
  {| self_api_key := key;
     self_enabled := truthy key;
     self_session := None |}.

Definition initialize (self : plugin) : plugin * bool :=
  if negb (truthy (self_api_key self))
  then ({| self_api_key := self_api_key self;
           self_enabled := false;
           self_session := self_session self |}, false)
  else ({| self_api_key := self_api_key self;
           self_enabled := self_enabled self;
           self_session := Some tt |}, true).

End Lifecycle.

(* ================================================================== *)
(** ** The vocabulary of the properties *)

Section Vocabulary.
Context {U : Unicode} {R : Runtime} {B : PluginBase} {S : Session}.

(** *** Matching *)

(** A continuation that never reports an end before its position. *)
Definition forward (k : Re.cont) : Prop :=
  forall i s g j g', k i s g = Some (j, g') -> i <= j.

Definition at_sign : codepoint := 64%N.

(** [starts_mention s]: an [@] followed by a word character. *)
Definition starts_mention (s : pystr) : bool :=
  match s with
  | a :: b :: _ => N.eqb a at_sign && is_word b
  | _ => false
  end.

(** [clean t]: no position of [t] starts a mention. *)
Fixpoint clean (t : pystr) : bool :=
  negb (starts_mention t) &&
  match t with
  | [] => true
  | _ :: t' => clean t'
  end.

(** [no_double_at s]: no [@] of [s] is directly followed by another. *)
Fixpoint no_double_at (s : pystr) : bool :=
  match s with
  | a :: s' =>
      negb (N.eqb a at_sign &&
            match s' with b :: _ => N.eqb b at_sign | [] => false end)
      && no_double_at s'
  | [] => true
  end.

(** The first character is neither an [@] nor a word character. *)
Definition plain_head (s : pystr) : bool :=
  match s with
  | c :: _ => negb (N.eqb c at_sign) && negb (is_word c)
  | [] => true
  end.

(** The words a pattern denotes. *)
Inductive lang : Re.regex -> pystr -> Prop :=
| lang_eps : lang Re.Eps []
| lang_chr c : lang (Re.Chr c) [c]
| lang_class (p : codepoint -> bool) c :
    p c = true -> lang (Re.Class p) [c]
| lang_seq r1 r2 w1 w2 :
    lang r1 w1 -> lang r2 w2 -> lang (Re.Seq r1 r2) (w1 ++ w2)
| lang_alt_l r1 r2 w : lang r1 w -> lang (Re.Alt r1 r2) w
| lang_alt_r r1 r2 w : lang r2 w -> lang (Re.Alt r1 r2) w
| lang_star_nil r : lang (Re.Star r) []
| lang_star_cons r w1 w2 :
    lang r w1 -> lang (Re.Star r) w2 -> lang (Re.Star r) (w1 ++ w2)
| lang_group n r w : lang r w -> lang (Re.Group n r) w.

(** Two results of the matcher that agree up to a shift of the
    positions by [d]. *)
Definition shifted (d : nat) (a b : option (nat * Re.caps)) : Prop :=
  match a, b with
  | None, None => True
  | Some (j, _), Some (j', _) => j' = j + d
  | _, _ => False
  end.

(** [stops p s]: [s] is empty or starts with a character outside the
    class [p]. *)
Definition stops (p : codepoint -> bool) (s : pystr) : bool :=
  match s with
  | [] => true
  | c :: _ => negb (p c)
  end.

(** The texts that follow a position of [s], nearest first. *)
Fixpoint proper_suffixes (s : pystr) : list pystr :=
  match s with
  | [] => []
  | _ :: s' => s' :: proper_suffixes s'
  end.

Definition keyword (kw : pystr) : Prop :=
  kw = lit "天气" \/ kw = lit "weather".

(** [starts_keyword s]: one of the two keywords is at the start of
    [s]. *)
Definition starts_keyword (s : pystr) : bool :=
  prefix (lit "天气") s || prefix (lit "weather") s.

(** [no_later_keyword s]: no keyword occurs in [s] behind its first
    character. *)
Definition no_later_keyword (s : pystr) : bool :=
  forallb (fun b => negb (starts_keyword b)) (proper_suffixes s).

(** In the Unicode database no letter of a city name is a space. *)
Definition letters_are_not_spaces : Prop :=
  forall c, city_letter c = true -> is_space c = false.

(** *** Events and replies *)

Definition kw_zh : pystr := lit "天气".
Definition kw_en : pystr := lit "weather".

(** The text of a note: the [text] entry, the empty string without
    one. *)
Definition text_of (note : list (pystr * pyval)) : pyval :=
  dict_get note (lit "text") (PyStr []).

(** The exception classes the two handlers name. *)
Definition absorbed (e : exn) : bool :=
  issubclass e ValueError || issubclass e KeyError.

Definition prompt_reply : reply :=
  {| handled := true; plugin_name := name; response := Weather.prompt |}.

(** What the handler does once it has the name of a city: the weather is
    fetched and wrapped into a reply, which is checked. *)
Definition answer_for (city : pystr) : outcome (option reply) :=
  weather_info <- Weather._get_weather city ;;
  let r := {| handled := true; plugin_name := name;
              response := Weather.or_else weather_info
                            (Weather.apology city) |} in
  Return (if _validate_plugin_response r then Some r else None).

(** *** Answers of the clients *)

(** What the formatter can return: the apology, or the six lines with or
    without the visibility line. *)
Inductive formatted (display_name : pyval) : pystr -> Prop :=
| formatted_failed : formatted display_name Weather.parse_failed
| formatted_text temp feels_like humidity description wind_speed pressure :
    formatted display_name
      (Weather.weather_text display_name temp feels_like
         humidity description wind_speed pressure)
| formatted_visible temp feels_like humidity description wind_speed
                    pressure km :
    formatted display_name
      (Weather.weather_text display_name temp feels_like
         humidity description wind_speed pressure
       ++ Weather.visibility_line km).

Definition geo_params (city : pystr) : list (pystr * pyval) :=
  [(lit "q", PyStr city); (lit "limit", PyInt 1);
   (lit "appid", PyStr api_key)].

Definition weather_params (lat lon : pyval) : list (pystr * pyval) :=
  [(lit "lat", lat); (lit "lon", lon); (lit "appid", PyStr api_key);
   (lit "units", PyStr (lit "metric")); (lit "lang", PyStr (lit "zh_cn"))].

(** The classes both clients name in their [except] clause. *)
Definition client_caught (e : exn) : bool :=
  existsb (issubclass e) [ClientError; OSError; ValueError; KeyError].

(** What [_get_weather] can return. *)
Inductive weather_answer (city : pystr) : pystr -> Prop :=
| answer_not_found : weather_answer city (Weather.not_found city)
| answer_unavailable : weather_answer city Weather.unavailable
| answer_error : weather_answer city Weather.error_occurred
| answer_formatted display_name s :
    formatted display_name s -> weather_answer city s.

(** *** Weather payloads *)

(** The fields the formatter reads. *)
Record snapshot := {
  s_temp : pyval;
  s_feels_like : pyval;
  s_humidity : pyval;
  s_pressure : pyval;
  s_description : pyval;
  s_wind_speed : pyval;
  s_visibility : option Z
}.

(** An int or a finite float. *)
Definition number (v : pyval) : Prop :=
  match v with
  | PyInt _ => True
  | PyFloat (S754_zero _) => True
  | PyFloat (S754_finite _ _ _) => True
  | _ => False
  end.

(** [within_half v n]: the integer [n] is at most one half away from the
    number [v]; for the float [x * 2^(-p)] this reads
    [2 * |n * 2^p - x| <= 2^p]. *)
Definition within_half (v : pyval) (n : Z) : Prop :=
  match v with
  | PyInt k => n = k
  | PyFloat (S754_zero _) => n = 0%Z
  | PyFloat (S754_finite sg mt e) =>
      let x := if sg then Zneg mt else Zpos mt in
      match e with
      | Zneg p => (2 * Z.abs (n * 2 ^ Zpos p - x) <= 2 ^ Zpos p)%Z
      | _ => n = (x * 2 ^ e)%Z
      end
  | _ => False
  end.

(** A payload [d] of the shape the weather endpoint documents, with the
    fields [w]: [main] holds the four numbers, [weather] starts with an
    entry that has a description, [wind] is absent or a dict, and
    [visibility] is absent or an int in the range of a float. *)
Record well_formed (d : list (pystr * pyval)) (w : snapshot) : Prop := {
  wf_main :
    exists dm,
      lookup (lit "main") d = Some (PyDict dm) /\
      lookup (lit "temp") dm = Some (s_temp w) /\
      lookup (lit "feels_like") dm = Some (s_feels_like w) /\
      lookup (lit "humidity") dm = Some (s_humidity w) /\
      lookup (lit "pressure") dm = Some (s_pressure w);
  wf_numbers : number (s_temp w) /\ number (s_feels_like w);
  wf_weather :
    exists dw rest,
      lookup (lit "weather") d = Some (PyList (PyDict dw :: rest)) /\
      lookup (lit "description") dw = Some (s_description w);
  wf_wind :
    exists dwind,
      dict_get d (lit "wind") (PyDict []) = PyDict dwind /\
      dict_get dwind (lit "speed") (PyInt 0) = s_wind_speed w;
  wf_visibility :
    match s_visibility w with
    | Some v =>
        lookup (lit "visibility") d = Some (PyInt v) /\
        (Z.abs v < 2 ^ 1024)%Z
    | None => lookup (lit "visibility") d = None
    end
}.

(** The six lines for the fields [w] with the two rounded
    temperatures. *)
Definition report (display_name : pyval) (w : snapshot) (temp feels : Z)
  : pystr :=
  Weather.weather_text display_name temp feels
    (s_humidity w) (s_description w) (s_wind_speed w) (s_pressure w).

(** The value of [visibility] after the conversion to kilometres. *)
Definition kilometres (w : snapshot) : outcome pyval :=
  match s_visibility w with
  | Some v =>
      if truthy (PyInt v) then truediv_1000 (PyInt v) else Return (PyInt 0)
  | None => Return (PyInt 0)
  end.

(** The visibility of a payload, as the report shows it. *)
Definition by_visibility (d : list (pystr * pyval)) (w : snapshot)
  (display_name : pyval) (base : pystr) : Prop :=
  match s_visibility w with
  | None =>
      Weather._format_weather_info_v25 (PyDict d) display_name = Return base
  | Some v =>
      if (0 <? v)%Z
      then
        exists km whole tenth,
          int_truediv v 1000 = Return km /\
          (tenth < 10)%N /\
          format_1f_float km = str_nat whole ++ [46; 48 + tenth]%N /\
          Weather._format_weather_info_v25 (PyDict d) display_name
          = Return (base ++ Weather.visibility_line (format_1f_float km))
      else
        Weather._format_weather_info_v25 (PyDict d) display_name
        = Return base
  end.

(** *** The text of a report, character by character *)

(** The decimal numeral of an integer as the Standard Library prints it:
    a minus sign for a negative number, then the digits without leading
    zeros. *)
Definition numeral (n : Z) : pystr :=
  map N_of_ascii
    (list_ascii_of_string
       (DecimalString.NilZero.string_of_int (Z.to_int n))).

(** The six lines of the f-string, with the two temperatures as
    numerals. *)
Definition six_lines (display_name : pyval) (w : snapshot) (temp feels : Z)
  : pystr :=
  lit "🌤️ " ++ str display_name ++ lit " 的天气:" ++ [10%N] ++
  lit "🌡️ 温度: " ++ numeral temp ++ lit "°C (体感 " ++
    numeral feels ++ lit "°C)" ++ [10%N] ++
  lit "💧 湿度: " ++ str (s_humidity w) ++ lit "%" ++ [10%N] ++
  lit "☁️ 天气: " ++ str (s_description w) ++ [10%N] ++
  lit "💨 风速: " ++ str (s_wind_speed w) ++ lit " m/s" ++ [10%N] ++
  lit "🌊 气压: " ++ str (s_pressure w) ++ lit " hPa".

(** What follows the six lines: nothing, or the visibility line with a
    number [whole.tenth] of kilometres that, below [2^52] metres, is at
    most 50 metres away from the visibility. *)
Definition visibility_tail (w : snapshot) (tail : pystr) : Prop :=
  match s_visibility w with
  | Some v =>
      if (0 <? v)%Z
      then exists whole tenth : N,
             (tenth < 10)%N /\
             ((v < 2 ^ 52)%Z ->
              (Z.abs (100 * (10 * Z.of_N whole + Z.of_N tenth) - v)
               <= 50)%Z) /\
             tail = [10%N] ++ lit "👁️ 能见度: " ++
                    numeral (Z.of_N whole) ++ [46; 48 + tenth]%N ++
                    lit " km"
      else tail = []
  | None => tail = []
  end.

(** The fields the formatter cannot do without, as in [well_formed]. *)
Definition required_fields (d : list (pystr * pyval)) (w : snapshot)
  : Prop :=
  (exists dm,
     lookup (lit "main") d = Some (PyDict dm) /\
     lookup (lit "temp") dm = Some (s_temp w) /\
     lookup (lit "feels_like") dm = Some (s_feels_like w) /\
     lookup (lit "humidity") dm = Some (s_humidity w) /\
     lookup (lit "pressure") dm = Some (s_pressure w)) /\
  (number (s_temp w) /\ number (s_feels_like w)) /\
  (exists dw rest,
     lookup (lit "weather") d = Some (PyList (PyDict dw :: rest)) /\
     lookup (lit "description") dw = Some (s_description w)).

(** *** Failures of the geocoding endpoint *)

(** The request or the decoding of the body fails with an exception the
    client catches, the status is not 200, the body is empty or a JSON
    object, or its first entry lacks the name or the position. *)
Inductive geocoding_fails (city : pystr) : Prop :=
| geo_request_fails e :
    session_get Weather.geocoding_url (geo_params city) = RequestFails e ->
    client_caught e = true ->
    geocoding_fails city
| geo_bad_status status json :
    session_get Weather.geocoding_url (geo_params city)
    = Response status json ->
    status <> 200%Z ->
    geocoding_fails city
| geo_body_fails e :
    session_get Weather.geocoding_url (geo_params city)
    = Response 200 (Raise e) ->
    client_caught e = true ->
    geocoding_fails city
| geo_empty_body data :
    session_get Weather.geocoding_url (geo_params city)
    = Response 200 (Return data) ->
    truthy data = false ->
    geocoding_fails city
| geo_object_body d :
    session_get Weather.geocoding_url (geo_params city)
    = Response 200 (Return (PyDict d)) ->
    geocoding_fails city
| geo_no_name loc rest :
    session_get Weather.geocoding_url (geo_params city)
    = Response 200 (Return (PyList (PyDict loc :: rest))) ->
    lookup (lit "name") loc = None ->
    geocoding_fails city
| geo_no_position loc rest nm :
    session_get Weather.geocoding_url (geo_params city)
    = Response 200 (Return (PyList (PyDict loc :: rest))) ->
    lookup (lit "name") loc = Some (PyStr nm) ->
    lookup (lit "lat") loc = None \/ lookup (lit "lon") loc = None ->
    geocoding_fails city.

End Vocabulary.

(* ================================================================== *)
(** ** Concrete hosts and services *)

Module Fixtures.

(** A runtime whose [repr] prints a placeholder; the displayed fields of
    the payloads below are ints and strings. *)
Definition plain_runtime : Runtime := {| repr := fun _ => lit "?" |}.

(** Modelled from the spec: [PluginBase] is not part of the source
    file.  A reply is valid when its response is non-empty (the two other
    keys are always present in the record), and the sender is extracted
    from a conventional field of the event, here [user]. *)
Definition base : PluginBase := {|
  name := lit "Weather";
  _extract_username := fun data =>
    user <- get data (lit "user") (PyDict []) ;;
    u <- get user (lit "username") (PyStr (lit "unknown")) ;;
    Return (str (H := plain_runtime) u);
  _validate_plugin_response := fun r =>
    match response r with [] => false | _ => true end
|}.

(** A host whose helper insists on the sender being present. *)
Definition strict_base : PluginBase := {|
  name := lit "Weather";
  _extract_username := fun data =>
    user <- getitem data (lit "user") ;;
    u <- getitem user (lit "username") ;;
    Return (str (H := plain_runtime) u);
  _validate_plugin_response := fun r =>
    match response r with [] => false | _ => true end
|}.

(** A session that answers the geocoding endpoint with [geo] and the
    weather endpoint with [weather]. *)
Definition session_of (geo weather : http_result) : Session := {|
  api_key := lit "key";
  session_get := fun url _ =>
    if pystr_eqb url Weather.geocoding_url then geo else weather
|}.

(** The double nearest to [a / b]. *)
Definition dec (a b : Z) : pyval :=
  match int_truediv a b with
  | Return f => PyFloat f
  | Raise _ => PyNone
  end.

Definition beijing : pyval :=
  PyList [PyDict [(lit "name", PyStr (lit "Beijing"));
                  (lit "lat", dec 399 10); (lit "lon", dec 1164 10);
                  (lit "country", PyStr (lit "CN"))]].

Definition main_ok : pyval :=
  PyDict [(lit "temp", dec 216 10); (lit "feels_like", dec 201 10);
          (lit "humidity", PyInt 45); (lit "pressure", PyInt 1013)].

Definition sunny_entries : list (pystr * pyval) :=
  [(lit "main", main_ok);
   (lit "weather", PyList [PyDict [(lit "description", PyStr (lit "晴"))]]);
   (lit "wind", PyDict [(lit "speed", PyInt 3)]);
   (lit "visibility", PyInt 10000)].

Definition sunny : pyval := PyDict sunny_entries.

Definition no_weather_entry : pyval :=
  PyDict [(lit "main", main_ok); (lit "weather", PyList [])].

Definition event (text : pyval) : list (pystr * pyval) :=
  [(lit "text", text)].

Definition quiet : Session :=
  session_of (RequestFails OSError) (RequestFails OSError).

Definition sunny_fields : snapshot := {|
  s_temp := dec 216 10;
  s_feels_like := dec 201 10;
  s_humidity := PyInt 45;
  s_pressure := PyInt 1013;
  s_description := PyStr (lit "晴");
  s_wind_speed := PyInt 3;
  s_visibility := Some 10000%Z
|}.

Definition beijing_entry : list (pystr * pyval) :=
  [(lit "name", PyStr (lit "Beijing"));
   (lit "lat", dec 399 10); (lit "lon", dec 1164 10);
   (lit "country", PyStr (lit "CN"))].

Definition main_entries : list (pystr * pyval) :=
  [(lit "temp", dec 216 10); (lit "feels_like", dec 201 10);
   (lit "humidity", PyInt 45); (lit "pressure", PyInt 1013)].


(** A payload without [wind] and without [visibility]. *)
Definition calm_entries : list (pystr * pyval) :=
  [(lit "main", PyDict main_entries);
   (lit "weather", PyList [PyDict [(lit "description", PyStr (lit "晴"))]])].

Definition calm_fields : snapshot := {|
  s_temp := dec 216 10;
  s_feels_like := dec 201 10;
  s_humidity := PyInt 45;
  s_pressure := PyInt 1013;
  s_description := PyStr (lit "晴");
  s_wind_speed := PyInt 0;
  s_visibility := None
|}.

(** A payload whose [wind] is [null]. *)
Definition null_wind_entries : list (pystr * pyval) :=
  (lit "wind", PyNone) :: calm_entries.

Definition sunny_session : Session :=
  session_of (Response 200 (Return beijing)) (Response 200 (Return sunny)).


End Fixtures.
Import Fixtures.

(* ================================================================== *)
(** ** Properties of the matcher *)

Section MatcherFacts.

Lemma accept_forward : forward Re.accept.
Proof. intros i s g j g' E. inversion E. lia. Qed.

Lemma star_loop_forward step k :
  (forall k', forward k' -> forward (fun i s g => step i s g k')) ->
  forward k ->
  forall fuel, forward (Re.star_loop step k fuel).
Proof.
  intros Hstep Hk fuel. induction fuel as [|fuel IH]; simpl.
  - exact Hk.
  - intros i s g j g' E.
    destruct (step i s g _) as [[j0 g0]|] eqn:E1.
    + inversion E; subst.
      refine (Hstep _ _ i s g j g' E1).
      intros i1 s1 g1 j1 g1' E2.
      destruct (Nat.ltb i i1); try discriminate.
      exact (IH _ _ _ _ _ E2).
    + eapply Hk; eauto.
Qed.

(** A match never ends before the position it starts at. *)
Lemma m_forward r :
  forall k, forward k -> forward (fun i s g => Re.m r i s g k).
Proof.
  induction r as [|c|p|r1 IH1 r2 IH2|r1 IH1 r2 IH2|r1 IH1|n r1 IH1];
    intros k Hk i s g j g' E; simpl in E.
  - exact (Hk _ _ _ _ _ E).
  - destruct s as [|x s']; try discriminate.
    destruct (N.eqb x c); try discriminate.
    apply Hk in E. lia.
  - destruct s as [|x s']; try discriminate.
    destruct (p x); try discriminate.
    apply Hk in E. lia.
  - exact (IH1 _ (IH2 _ Hk) _ _ _ _ _ E).
  - destruct (Re.m r1 i s g k) as [[j0 g0]|] eqn:E1.
    + inversion E; subst. exact (IH1 _ Hk _ _ _ _ _ E1).
    + exact (IH2 _ Hk _ _ _ _ _ E).
  - exact (star_loop_forward (Re.m r1) IH1 Hk _ _ _ _ E).
  - refine (IH1 _ _ _ _ _ _ _ E).
    intros i1 s1 g1 j1 g1' E2. exact (Hk _ _ _ _ _ E2).
Qed.

(** A star never fails when what follows it never fails. *)
Lemma star_loop_total step k :
  (forall i s g, k i s g <> None) ->
  forall fuel i s g, Re.star_loop step k fuel i s g <> None.
Proof.
  intros Hk fuel i s g. destruct fuel as [|fuel]; simpl.
  - apply Hk.
  - destruct (step i s g _); [discriminate | apply Hk].
Qed.

Context `{Unicode}.

Lemma mention_match_some i s j g :
  Re.match_at MENTION_PATTERN i s = Some (j, g) ->
  starts_mention s = true /\ i < j.
Proof.
  unfold Re.match_at, MENTION_PATTERN. intros E.
  destruct s as [|a s']; simpl in E; try discriminate.
  destruct (N.eqb a 64) eqn:Ea; try discriminate.
  destruct s' as [|b s'']; try discriminate.
  destruct (is_word b) eqn:Eb; try discriminate.
  split.
  - simpl. unfold at_sign. rewrite Ea, Eb. reflexivity.
  - assert (F : forward (fun i s g =>
               Re.m (Re.Star (Re.Class is_word)) i s g
                 (fun i' s' g' =>
                    Re.m (Re.Star (Re.Class is_space)) i' s' g' Re.accept))).
    { apply m_forward.
      exact (m_forward (Re.Star (Re.Class is_space)) accept_forward). }
    apply F in E. lia.
Qed.

Lemma mention_match_none i s :
  starts_mention s = false -> Re.match_at MENTION_PATTERN i s = None.
Proof.
  unfold Re.match_at, MENTION_PATTERN, starts_mention, at_sign. intros E.
  destruct s as [|a [|b s'']]; simpl; try reflexivity.
  - destruct (N.eqb a 64); reflexivity.
  - destruct (N.eqb a 64); try reflexivity.
    simpl in E. rewrite E. reflexivity.
Qed.

Lemma mention_match_total i s :
  starts_mention s = true -> Re.match_at MENTION_PATTERN i s <> None.
Proof.
  unfold Re.match_at, MENTION_PATTERN, starts_mention, at_sign. intros E.
  destruct s as [|a [|b s'']]; try discriminate.
  apply andb_prop in E. destruct E as [Ea Eb].
  simpl. rewrite Ea, Eb.
  apply star_loop_total. intros i1 s1 g1.
  apply star_loop_total. intros i2 s2 g2. discriminate.
Qed.

(** Stripping leaves a text without mentions as it is. *)
Lemma sub_clean t : forall i,
  clean t = true -> Re.sub_from MENTION_PATTERN [] 0 i t = t.
Proof.
  induction t as [|c t IH]; intros i C.
  - cbn [Re.sub_from]. rewrite mention_match_none; reflexivity.
  - cbn [clean] in C. apply andb_prop in C. destruct C as [C1 C2].
    apply negb_true_iff in C1.
    cbn [Re.sub_from]. rewrite (mention_match_none i (c :: t) C1).
    rewrite IH; auto.
Qed.

(** The invariant of the substitution loop: [prev] is the last character
    written so far.  Inside a match ([skip] not zero) it is not an [@];
    between matches an [@] just written is followed by a character that
    starts no mention and completes none. *)
Lemma sub_from_clean s : forall skip i prev,
  no_double_at s = true ->
  (skip <> 0 -> N.eqb prev at_sign = false) ->
  (skip = 0 -> N.eqb prev at_sign = true -> plain_head s = true) ->
  clean (prev :: Re.sub_from MENTION_PATTERN [] skip i s) = true.
Proof.
  induction s as [|c s IH]; intros skip i prev D Hin Hout.
  - assert (E : Re.sub_from MENTION_PATTERN [] skip i [] = []).
    { destruct skip; reflexivity. }
    rewrite E. reflexivity.
  - cbn [no_double_at] in D. apply andb_prop in D. destruct D as [D1 D2].
    destruct skip as [|k]; cbn [Re.sub_from].
    + destruct (Re.match_at MENTION_PATTERN i (c :: s)) as [[j g]|] eqn:E.
      * apply mention_match_some in E. destruct E as [E L].
        assert (Ec : N.eqb c at_sign = true).
        { simpl in E. destruct s; try discriminate.
          apply andb_prop in E. tauto. }
        assert (Ep : N.eqb prev at_sign = false).
        { destruct (N.eqb prev at_sign) eqn:Ep; auto.
          specialize (Hout eq_refl eq_refl). simpl in Hout.
          rewrite Ec in Hout. discriminate. }
        replace (Nat.eqb j i) with false
          by (symmetry; apply Nat.eqb_neq; lia).
        cbn [app]. apply IH; auto. intros _ Ep'. congruence.
      * assert (Es : starts_mention (c :: s) = false).
        { destruct (starts_mention (c :: s)) eqn:Es; auto.
          apply (mention_match_total i) in Es. contradiction. }
        cbn [clean]. apply andb_true_intro. split.
        -- cbn [starts_mention].
           destruct (N.eqb prev at_sign) eqn:Ep; auto.
           specialize (Hout eq_refl eq_refl). simpl in Hout.
           apply andb_prop in Hout. destruct Hout as [_ Hw].
           apply negb_true_iff in Hw. rewrite Hw. reflexivity.
        -- apply IH; auto; try congruence.
           intros _ Ec. rewrite Ec in D1. simpl in D1, Es.
           destruct s as [|b s']; auto. cbn [plain_head].
           rewrite Ec in Es. simpl in Es. rewrite Es.
           apply negb_true_iff in D1. rewrite D1. reflexivity.
    + assert (Ep : N.eqb prev at_sign = false) by (apply Hin; discriminate).
      apply IH; [exact D2 | intros _; exact Ep | intros _ Ep'; congruence].
Qed.

Lemma clean_tail c t : clean (c :: t) = true -> clean t = true.
Proof. cbn [clean]. intros C. apply andb_prop in C. tauto. Qed.

End MatcherFacts.

(* ================================================================== *)
(** ** Mention stripping *)

Section Mentions.
Context `{Unicode}.

(** C4, as amended.  Stripping the mention markers is idempotent on every
    text in which no [@] is directly followed by another [@]: a second
    pass over the stripped text finds nothing left to remove. *)
Theorem strip_mentions_idempotent (s : pystr) :
  no_double_at s = true ->
  strip_mentions (strip_mentions s) = strip_mentions s.
Proof.
  intros D. unfold strip_mentions, Re.sub.
  apply sub_clean.
  apply (clean_tail 0%N).
  apply sub_from_clean; auto; discriminate.
Qed.

End Mentions.

(** C4 on a mention followed by a query. *)
Lemma strip_mentions_idempotent_witness :
  no_double_at (lit "@bot 北京天气") = true /\
  @strip_mentions basic_unicode
    (@strip_mentions basic_unicode (lit "@bot 北京天气"))
  = lit "北京天气".
Proof.
  split; [reflexivity|].
  rewrite (@strip_mentions_idempotent basic_unicode (lit "@bot 北京天气"));
    reflexivity.
Defined.

(** C4 as stated fails: stripping ["@@a b"] leaves ["@b"], which a second
    pass removes altogether. *)
Lemma strip_mentions_not_idempotent :
  @strip_mentions basic_unicode (lit "@@a b") = lit "@b" /\
  @strip_mentions basic_unicode (@strip_mentions basic_unicode (lit "@@a b"))
  <> @strip_mentions basic_unicode (lit "@@a b").
Proof. split; [reflexivity | vm_compute; discriminate]. Qed.

(* ================================================================== *)
(** ** The message handler *)

Section Handler.
Context {U : Unicode} {R : Runtime} {B : PluginBase} {S : Session}.

Lemma process_no_keyword note t :
  text_of note = PyStr t ->
  contains kw_zh t = false -> contains kw_en t = false ->
  Weather._process_weather_message (PyDict note) = Return None.
Proof.
  intros T Z E. unfold Weather._process_weather_message.
  cbn [get bind]. fold (text_of note). rewrite T.
  cbn [contains_str bind]. fold kw_zh kw_en. rewrite Z.
  cbn [negb bind]. rewrite E. reflexivity.
Qed.

Lemma process_keyword note t :
  text_of note = PyStr t ->
  contains kw_zh t || contains kw_en t = true ->
  Weather._process_weather_message (PyDict note) =
  (username <- _extract_username (PyDict note) ;;
   Weather._handle_weather_request username
     (Re.search LOCATION_PATTERN (strip_mentions t))).
Proof.
  intros T K. unfold Weather._process_weather_message.
  cbn [get bind]. fold (text_of note). rewrite T.
  cbn [contains_str bind]. fold kw_zh kw_en.
  destruct (contains kw_zh t); cbn [negb bind].
  - reflexivity.
  - simpl in K. rewrite K. reflexivity.
Qed.

Lemma try_except_absorbed {A} (o : outcome A) h e :
  try_except o [ValueError; KeyError] h = Raise e ->
  (forall e', exists a, h e' = Return a) ->
  absorbed e = false.
Proof.
  unfold try_except, absorbed. intros E Hh.
  destruct o as [a|e0]; try discriminate.
  cbn [existsb] in E. rewrite orb_false_r in E.
  destruct (issubclass e0 ValueError || issubclass e0 KeyError) eqn:C.
  - destruct (Hh e0) as [a Ha]. rewrite Ha in E. discriminate.
  - inversion E; subst. exact C.
Qed.

(** What the two handlers do absorb: [ValueError] and [KeyError] (and
    their subclasses).  Neither handler ever raises an exception of these
    classes, and when the processing of the note raises one the handler
    returns no reply. *)
Theorem handlers_absorb_value_and_key_errors
  (data : list (pystr * pyval)) (e : exn) :
  absorbed e = true ->
  Weather.on_mention data <> Raise e /\
  Weather.on_message data <> Raise e /\
  (Weather._process_weather_message (Weather.note_of data) = Raise e ->
   Weather.on_mention data = Return None) /\
  (Weather._process_weather_message (PyDict data) = Raise e ->
   Weather.on_message data = Return None).
Proof.
  intros A. repeat split.
  - intros E. apply try_except_absorbed in E; [congruence|].
    intros _. eexists; reflexivity.
  - intros E. apply try_except_absorbed in E; [congruence|].
    intros _. eexists; reflexivity.
  - intros E. unfold Weather.on_mention. cbv zeta. rewrite E.
    unfold try_except. cbn [existsb]. rewrite orb_false_r.
    unfold absorbed in A. rewrite A. reflexivity.
  - intros E. unfold Weather.on_message. rewrite E.
    unfold try_except. cbn [existsb]. rewrite orb_false_r.
    unfold absorbed in A. rewrite A. reflexivity.
Qed.

(** C2.  A note whose text holds neither ["天气"] nor ["weather"] (or that
    has no text at all) gets no reply, from [on_message] and from
    [on_mention] alike. *)
Theorem no_keyword_no_reply (note : list (pystr * pyval)) (t : pystr) :
  text_of note = PyStr t ->
  contains kw_zh t = false ->
  contains kw_en t = false ->
  Weather._process_weather_message (PyDict note) = Return None /\
  Weather.on_message note = Return None /\
  (forall data, Weather.note_of data = PyDict note ->
                Weather.on_mention data = Return None).
Proof.
  intros T Z E.
  pose proof (process_no_keyword note T Z E) as P.
  repeat split.
  - exact P.
  - unfold Weather.on_message. rewrite P. reflexivity.
  - intros data N. unfold Weather.on_mention. cbv zeta.
    rewrite N, P. reflexivity.
Qed.


End Handler.

(** *** The handler on concrete events *)

(** The phrase before the keyword is the first group, the phrase after
    it the second. *)
Example search_city_first :
  option_map (fun mo => (Re.group mo 1, Re.group mo 2))
    (Re.search (@LOCATION_PATTERN basic_unicode) (lit "北京天气"))
  = Some (Some (lit "北京"), None).
Proof. vm_compute. reflexivity. Qed.

Example search_keyword_first :
  option_map (fun mo => (Re.group mo 1, Re.group mo 2))
    (Re.search (@LOCATION_PATTERN basic_unicode)
       (lit "the weather in New York  "))
  = Some (None, Some (lit "in New York")).
Proof. vm_compute. reflexivity. Qed.

(** A mention of the bot, wrapped in its envelope, asking for Beijing. *)
Example mention_of_beijing :
  @Weather.on_mention basic_unicode plain_runtime base
    (session_of (Response 200 (Return beijing))
                (Response 200 (Return sunny)))
    [(lit "type", PyStr (lit "mention"));
     (lit "note", PyDict (event (PyStr (lit "@bot 北京天气"))))]
  = Return (Some {|
      handled := true;
      plugin_name := lit "Weather";
      response :=
        lit "🌤️ Beijing, CN 的天气:" ++ Weather.nl ++
        lit "🌡️ 温度: 22°C (体感 20°C)" ++ Weather.nl ++
        lit "💧 湿度: 45%" ++ Weather.nl ++
        lit "☁️ 天气: 晴" ++ Weather.nl ++
        lit "💨 风速: 3 m/s" ++ Weather.nl ++
        lit "🌊 气压: 1013 hPa" ++ Weather.nl ++
        lit "👁️ 能见度: 10.0 km" |}).
Proof. vm_compute. reflexivity. Qed.

(** On a host whose helper looks the sender up with [data["user"]], the
    [KeyError] of an event without sender ends in no reply. *)
Lemma handlers_absorb_value_and_key_errors_witness :
  @Weather.on_message basic_unicode plain_runtime strict_base quiet
    (event (PyStr (lit "北京天气"))) = Return None.
Proof.
  apply (@handlers_absorb_value_and_key_errors
           basic_unicode plain_runtime strict_base quiet
           (event (PyStr (lit "北京天气"))) KeyError);
    reflexivity.
Defined.

(** C1.  The except clause of the two handlers names [ValueError] and
    [KeyError] only, so other exceptions reach the caller.  On an event
    whose text is [None] the keyword test raises a [TypeError]; on a
    request for Beijing the [IndexError] of a weather payload with an
    empty [weather] list and the [TypeError] of a geocoding body [[null]]
    come up from the clients.  Each of them leaves the handler. *)
Theorem handlers_let_exceptions_escape :
  @Weather.on_mention basic_unicode plain_runtime base quiet (event PyNone)
    = Raise TypeError /\
  @Weather.on_message basic_unicode plain_runtime base quiet (event PyNone)
    = Raise TypeError /\
  @Weather.on_message basic_unicode plain_runtime base
    (session_of (Response 200 (Return beijing))
                (Response 200 (Return no_weather_entry)))
    (event (PyStr (lit "北京天气")))
    = Raise IndexError /\
  @Weather.on_message basic_unicode plain_runtime base
    (session_of (Response 200 (Return (PyList [PyNone])))
                (RequestFails OSError))
    (event (PyStr (lit "北京天气")))
    = Raise TypeError.
Proof. repeat split; vm_compute; reflexivity. Qed.

Lemma no_keyword_no_reply_witness :
  @Weather.on_message basic_unicode plain_runtime base quiet
    (event (PyStr (lit "hello @bot"))) = Return None.
Proof.
  apply (@no_keyword_no_reply basic_unicode plain_runtime base quiet
           (event (PyStr (lit "hello @bot"))) (lit "hello @bot"));
    reflexivity.
Defined.


(* ================================================================== *)
(** ** The formatter *)

Section Formatter.
Context {R : Runtime}.

Ltac step_bind :=
  match goal with
  | E : context [bind ?o _] |- _ =>
      let a := fresh "a" in
      let e := fresh "e" in
      let Eo := fresh "Eo" in
      destruct o as [a|e] eqn:Eo; cbn [bind] in E
  end.

Lemma try_except_return {A} (o : outcome A) cs h a :
  try_except o cs h = Return a ->
  o = Return a \/ exists e, o = Raise e /\ h e = Return a.
Proof.
  unfold try_except. destruct o as [a0|e]; intros E.
  - left. exact E.
  - right. exists e. destruct (existsb _ _); [auto | discriminate].
Qed.

Lemma format_returns data display_name s :
  Weather._format_weather_info_v25 data display_name = Return s ->
  formatted display_name s.
Proof.
  unfold Weather._format_weather_info_v25. intros E.
  apply try_except_return in E. destruct E as [E|[e [_ E]]].
  - repeat (step_bind; try discriminate).
    all: match type of E with
         | (if ?b then _ else _) = _ => destruct b
         | _ => idtac
         end.
    all: inversion E; subst; constructor.
  - inversion E; subst. constructor.
Qed.

Lemma formatted_nonempty display_name s :
  formatted display_name s -> s <> [].
Proof. intros F. destruct F; discriminate. Qed.

End Formatter.

(** Payloads without a required field, as far as the formatter copes with
    them: a missing key is a [KeyError], a payload or a [main] entry of
    the wrong shape a [TypeError]. *)
Section FormatterFailures.
Context {R : Runtime}.

Lemma format_not_a_dict data display_name :
  (forall d, data <> PyDict d) ->
  Weather._format_weather_info_v25 data display_name
  = Return Weather.parse_failed.
Proof.
  intros N. unfold Weather._format_weather_info_v25.
  destruct data; try reflexivity. destruct (N d). reflexivity.
Qed.


Lemma format_missing_temp d dm display_name :
  lookup (lit "main") d = Some (PyDict dm) ->
  lookup (lit "temp") dm = None ->
  Weather._format_weather_info_v25 (PyDict d) display_name
  = Return Weather.parse_failed.
Proof.
  intros L T. unfold Weather._format_weather_info_v25.
  cbn [getitem]. rewrite L. cbn [bind getitem]. rewrite T. reflexivity.
Qed.

End FormatterFailures.

(* ================================================================== *)
(** ** The two clients *)

Section Clients.
Context {R : Runtime} {S : Session}.

Lemma coordinates_request_fails city e :
  session_get Weather.geocoding_url (geo_params city) = RequestFails e ->
  client_caught e = true ->
  Weather._get_coordinates city = Return None.
Proof.
  intros G C. unfold Weather._get_coordinates. cbv zeta.
  fold (geo_params city). rewrite G.
  unfold try_except. fold (client_caught e). rewrite C. reflexivity.
Qed.

Lemma coordinates_bad_status city status json :
  session_get Weather.geocoding_url (geo_params city)
  = Response status json ->
  status <> 200%Z ->
  Weather._get_coordinates city = Return None.
Proof.
  intros G N. unfold Weather._get_coordinates. cbv zeta.
  fold (geo_params city). rewrite G.
  apply Z.eqb_neq in N. rewrite N. reflexivity.
Qed.

Lemma coordinates_body_fails city e :
  session_get Weather.geocoding_url (geo_params city)
  = Response 200 (Raise e) ->
  client_caught e = true ->
  Weather._get_coordinates city = Return None.
Proof.
  intros G C. unfold Weather._get_coordinates. cbv zeta.
  fold (geo_params city). rewrite G. cbn [Z.eqb Pos.eqb negb bind].
  unfold try_except. fold (client_caught e). rewrite C. reflexivity.
Qed.

Lemma coordinates_empty_body city data :
  session_get Weather.geocoding_url (geo_params city)
  = Response 200 (Return data) ->
  truthy data = false ->
  Weather._get_coordinates city = Return None.
Proof.
  intros G T. unfold Weather._get_coordinates. cbv zeta.
  fold (geo_params city). rewrite G. cbn [Z.eqb Pos.eqb negb bind].
  rewrite T. reflexivity.
Qed.

Lemma weather_not_found city :
  Weather._get_coordinates city = Return None ->
  Weather._get_weather city = Return (Some (Weather.not_found city)).
Proof.
  intros G. unfold Weather._get_weather. rewrite G. reflexivity.
Qed.




Lemma weather_answer_nonempty city s : weather_answer city s -> s <> [].
Proof.
  intros A. destruct A; try discriminate.
  eapply formatted_nonempty; eauto.
Qed.

Lemma get_weather_returns city v :
  Weather._get_weather city = Return v ->
  exists s, v = Some s /\ weather_answer city s.
Proof.
  unfold Weather._get_weather. intros E.
  apply try_except_return in E. destruct E as [E|[e [_ E]]].
  - destruct (Weather._get_coordinates city) as [[[[lat lon] dn]|]|e];
      cbn [bind] in E; try discriminate.
    + destruct (session_get _ _) as [e|status json]; try discriminate.
      destruct (Z.eqb status 200).
      * destruct json as [data|e]; cbn [bind] in E; try discriminate.
        destruct (Weather._format_weather_info_v25 data dn) as [text|e]
          eqn:F; cbn [bind] in E; try discriminate.
        inversion E; subst. exists text. split; auto.
        eapply answer_formatted, format_returns; eauto.
      * inversion E; subst. eexists; split; eauto.
        apply answer_unavailable.
    + inversion E; subst. eexists; split; eauto. apply answer_not_found.
  - inversion E; subst. eexists; split; eauto. apply answer_error.
Qed.

End Clients.

(* ================================================================== *)
(** ** Replies *)

Section Replies.
Context {U : Unicode} {R : Runtime} {B : PluginBase} {S : Session}.

Lemma or_else_some s b : s <> [] -> Weather.or_else (Some s) b = s.
Proof. destruct s; [contradiction | reflexivity]. Qed.



End Replies.

(* ================================================================== *)
(** ** Payloads the clients do not cope with *)

(** C7.  A payload whose [weather] list is empty has no
    [weather[0].description]; the lookup raises an [IndexError], which is
    not among the classes the formatter catches, so the apology is not
    returned. *)
Theorem format_empty_weather_list_raises (R : Runtime) (name : pyval) :
  Weather._format_weather_info_v25 no_weather_entry name = Raise IndexError.
Proof. reflexivity. Qed.

(** C5.  With a city that is found and a weather payload whose [weather]
    list is empty, the [IndexError] of the formatter passes through
    [_get_weather] as well. *)
Theorem get_weather_empty_weather_list_raises (R : Runtime) :
  Weather._get_weather
    (S := session_of (Response 200 (Return beijing))
                     (Response 200 (Return no_weather_entry)))
    (lit "Beijing")
  = Raise IndexError.
Proof. vm_compute. reflexivity. Qed.


(** C6.  A geocoding payload whose first entry is [null] makes the lookup
    of the name raise a [TypeError], which [_get_coordinates] does not
    catch. *)
Theorem get_coordinates_null_entry_raises
  (R : Runtime) (weather : http_result) :
  Weather._get_coordinates
    (S := session_of (Response 200 (Return (PyList [PyNone]))) weather)
    (lit "Beijing")
  = Raise TypeError.
Proof. reflexivity. Qed.

(* ================================================================== *)
(** ** Facts on binary64 arithmetic *)

Module Binary64.
Local Open Scope Z_scope.

Lemma digits_bounds p :
  2 ^ (Zpos (digits2_pos p) - 1) <= Zpos p < 2 ^ Zpos (digits2_pos p).
Proof.
  induction p as [p IH|p IH|]; cbn [digits2_pos].
  - rewrite Pos2Z.inj_succ.
    replace (Z.succ (Zpos (digits2_pos p)) - 1)
      with (Z.succ (Zpos (digits2_pos p) - 1)) by lia.
    rewrite !Z.pow_succ_r by lia. lia.
  - rewrite Pos2Z.inj_succ.
    replace (Z.succ (Zpos (digits2_pos p)) - 1)
      with (Z.succ (Zpos (digits2_pos p) - 1)) by lia.
    rewrite !Z.pow_succ_r by lia. lia.
  - simpl. lia.
Qed.

Lemma digits_unique m k :
  0 < k -> 2 ^ (k - 1) <= m < 2 ^ k -> Zdigits2 m = k.
Proof.
  intros K [L U].
  assert (0 < m) by (pose proof (Z.pow_pos_nonneg 2 (k - 1)); lia).
  destruct m as [|p|p]; try lia. cbn [Zdigits2].
  pose proof (digits_bounds p) as [L' U'].
  set (d := Zpos (digits2_pos p)) in *.
  destruct (Z.lt_trichotomy d k) as [C|[C|C]]; auto.
  - assert (2 ^ d <= 2 ^ (k - 1)) by (apply Z.pow_le_mono_r; lia). lia.
  - assert (2 ^ k <= 2 ^ (d - 1)) by (apply Z.pow_le_mono_r; lia). lia.
Qed.

Lemma shr_1_m mrs : 0 <= shr_m mrs -> shr_m (shr_1 mrs) = shr_m mrs / 2.
Proof.
  destruct mrs as [m r s]. cbn [shr_m shr_1]. intros P.
  destruct m as [|[p|p|]|p]; cbn [shr_m]; try lia.
  all: try reflexivity.
  - apply Z.div_unique with 1; lia.
  - apply Z.div_unique with 0; lia.
Qed.

Lemma pow_xO n : 2 ^ Zpos n~0 = 2 ^ Zpos n * 2 ^ Zpos n.
Proof. rewrite <- Z.pow_add_r by lia. f_equal. lia. Qed.

Lemma pow_xI n : 2 ^ Zpos n~1 = 2 * (2 ^ Zpos n * 2 ^ Zpos n).
Proof.
  rewrite <- Z.pow_add_r, <- Z.pow_succ_r by lia.
  f_equal. lia.
Qed.

Lemma shr_m_iter n : forall mrs,
  0 <= shr_m mrs ->
  shr_m (iter_pos shr_1 n mrs) = shr_m mrs / 2 ^ Zpos n.
Proof.
  induction n as [n IH|n IH|]; intros mrs P; cbn [iter_pos].
  - assert (P1 : 0 <= shr_m (shr_1 mrs)).
    { rewrite shr_1_m by auto. apply Z.div_pos; lia. }
    assert (P2 : 0 <= shr_m (iter_pos shr_1 n (shr_1 mrs))).
    { rewrite IH by auto. apply Z.div_pos; auto.
      apply Z.pow_pos_nonneg; lia. }
    rewrite IH, IH, shr_1_m by auto.
    rewrite !Z.div_div by (try apply Z.pow_pos_nonneg; lia).
    rewrite pow_xI. reflexivity.
  - assert (P2 : 0 <= shr_m (iter_pos shr_1 n mrs)).
    { rewrite IH by auto. apply Z.div_pos; auto.
      apply Z.pow_pos_nonneg; lia. }
    rewrite IH, IH by auto.
    rewrite !Z.div_div by (try apply Z.pow_pos_nonneg; lia).
    rewrite pow_xO. reflexivity.
  - apply shr_1_m; auto.
Qed.

Lemma round_nearest_even_bounds m l :
  m <= round_nearest_even m l <= m + 1.
Proof.
  unfold round_nearest_even.
  destruct l as [|[]]; try destruct (Z.even m); lia.
Qed.

Lemma shr_record_of_loc_m m l : shr_m (shr_record_of_loc m l) = m.
Proof. destruct l as [|[]]; reflexivity. Qed.

(** Rounding a mantissa of at least 53 bits to 53 bits *)
Lemma shr_fexp_spec mx ex lx :
  2 ^ 52 <= mx -> -1074 <= ex ->
  let d := Zdigits2 mx in
  53 <= d /\
  snd (shr_fexp prec emax mx ex lx) = ex + (d - 53) /\
  shr_m (fst (shr_fexp prec emax mx ex lx)) = mx / 2 ^ (d - 53).
Proof.
  intros M E d.
  assert (D : 53 <= d).
  { destruct mx as [|p|p]; try lia. subst d. cbn [Zdigits2].
    pose proof (digits_bounds p) as [_ Up].
    destruct (Z_lt_le_dec (Zpos (digits2_pos p)) 53) as [C|C]; auto.
    assert (2 ^ Zpos (digits2_pos p) <= 2 ^ 52)
      by (apply Z.pow_le_mono_r; lia).
    lia. }
  split; auto.
  unfold shr_fexp, fexp, emin, prec, emax. fold d.
  rewrite Z.max_l by lia.
  replace (d + ex - 53 - ex) with (d - 53) by lia.
  destruct (d - 53) as [|n|n] eqn:N; try lia.
  - cbn [shr fst snd]. rewrite shr_record_of_loc_m.
    rewrite Z.div_1_r. split; [lia | reflexivity].
  - cbn [shr fst snd]. split; auto.
    rewrite shr_m_iter; rewrite shr_record_of_loc_m; auto. lia.
Qed.

Lemma div_pow_bounds mx d :
  53 <= d -> 2 ^ (d - 1) <= mx < 2 ^ d ->
  2 ^ 52 <= mx / 2 ^ (d - 53) < 2 ^ 53.
Proof.
  intros D [L U].
  assert (P : 0 < 2 ^ (d - 53)) by (apply Z.pow_pos_nonneg; lia).
  assert (E1 : 2 ^ (d - 1) = 2 ^ (d - 53) * 2 ^ 52).
  { rewrite <- Z.pow_add_r by lia. f_equal. lia. }
  assert (E2 : 2 ^ d = 2 ^ (d - 53) * 2 ^ 53).
  { rewrite <- Z.pow_add_r by lia. f_equal. lia. }
  split.
  - apply Z.div_le_lower_bound; lia.
  - apply Z.div_lt_upper_bound; lia.
Qed.

Lemma digits_of_bounds mx :
  0 < mx -> 2 ^ (Zdigits2 mx - 1) <= mx < 2 ^ Zdigits2 mx.
Proof.
  destruct mx as [|p|p]; try lia. intros _. apply digits_bounds.
Qed.

(** A mantissa of at least 53 bits whose exponent is within range rounds
    to a finite non-zero number. *)
Lemma binary_round_aux_finite sx mx ex lx :
  2 ^ 52 <= mx -> -1074 <= ex -> Zdigits2 mx + ex <= 1023 ->
  exists m e, binary_round_aux prec emax sx mx ex lx = S754_finite sx m e.
Proof.
  intros M E B. unfold binary_round_aux.
  pose proof (@shr_fexp_spec mx ex lx M E) as [D [S1 M1]].
  destruct (shr_fexp prec emax mx ex lx) as [mrs1 e1]. cbn [fst snd] in *.
  assert (B1 := @div_pow_bounds mx _ D (@digits_of_bounds mx ltac:(lia))).
  rewrite <- M1 in B1.
  set (m2 := round_nearest_even (shr_m mrs1) (loc_of_shr_record mrs1)).
  pose proof (round_nearest_even_bounds (shr_m mrs1)
                (loc_of_shr_record mrs1)) as B2.
  fold m2 in B2.
  assert (M2 : 2 ^ 52 <= m2) by lia.
  assert (E1 : -1074 <= e1) by lia.
  pose proof (@shr_fexp_spec m2 e1 loc_Exact M2 E1) as [D2 [S2 M3]].
  destruct (shr_fexp prec emax m2 e1 loc_Exact) as [mrs2 e2].
  cbn [fst snd] in *.
  assert (K : Zdigits2 m2 = 53 \/ Zdigits2 m2 = 54).
  { destruct (Z.eq_dec m2 (2 ^ 53)) as [C|C].
    - right. rewrite C. reflexivity.
    - left. apply digits_unique; lia. }
  assert (P : 0 < shr_m mrs2 /\ e2 <= 971).
  { rewrite M3. destruct K as [K|K]; rewrite K in *.
    - change (2 ^ (53 - 53)) with 1. rewrite Z.div_1_r. lia.
    - change (2 ^ (54 - 53)) with 2.
      assert (2 ^ 51 <= m2 / 2) by (apply Z.div_le_lower_bound; lia).
      lia. }
  destruct P as [P1 P2].
  destruct (shr_m mrs2) as [|m|m]; try lia.
  unfold emax, prec. replace (e2 <=? 1024 - 53) with true
    by (symmetry; apply Z.leb_le; lia).
  eauto.
Qed.

Lemma digits_upper m k : 0 <= k -> 0 <= m < 2 ^ k -> Zdigits2 m <= k.
Proof.
  intros K [L U]. destruct m as [|p|p]; [simpl; lia | | lia].
  cbn [Zdigits2].
  pose proof (digits_bounds p) as [L' _].
  destruct (Z_le_gt_dec (Zpos (digits2_pos p)) k) as [C|C]; auto.
  assert (2 ^ k <= 2 ^ (Zpos (digits2_pos p) - 1))
    by (apply Z.pow_le_mono_r; lia).
  lia.
Qed.

(** The quotient by 1000 of a non-zero int in the range of a float is a
    finite non-zero float of the same sign. *)
Lemma div_1000_finite sg p :
  Zpos p < 2 ^ 1024 ->
  exists m e,
    SFdiv prec emax (S754_finite sg p 0) (float_of_Z 1000)
    = S754_finite sg m e.
Proof.
  intros U. cbn [float_of_Z SFdiv]. rewrite xorb_false_r.
  unfold SFdiv_core_binary.
  change (Zdigits2 1000) with 10.
  set (d1 := Zdigits2 (Zpos p)).
  pose proof (@digits_of_bounds (Zpos p) ltac:(lia)) as [L1 U1]. fold d1 in L1, U1.
  assert (D1 : 1 <= d1) by (subst d1; cbn [Zdigits2]; lia).
  unfold fexp, emin, prec, emax.
  replace (d1 + 0 - (10 + 0) - 53) with (d1 - 63) by lia.
  rewrite Z.max_l by lia. change (0 - 0) with 0.
  destruct (Z_le_gt_dec d1 63) as [C|C].
  - rewrite Z.min_l by lia.
    replace (0 - (d1 - 63)) with (63 - d1) by lia.
    set (s := 63 - d1).
    assert (M : (match s with
                 | 0 => Zpos p
                 | Zpos _ => Z.shiftl (Zpos p) s
                 | Zneg _ => 0
                 end) = Zpos p * 2 ^ s).
    { destruct s eqn:S; try lia.
      - rewrite Z.shiftl_mul_pow2 by lia. reflexivity. }
    rewrite M.
    assert (P : 0 < 2 ^ s) by (apply Z.pow_pos_nonneg; lia).
    assert (E1 : 2 ^ 62 = 2 ^ (d1 - 1) * 2 ^ s).
    { rewrite <- Z.pow_add_r by lia. f_equal. lia. }
    assert (E2 : 2 ^ 63 = 2 ^ d1 * 2 ^ s).
    { rewrite <- Z.pow_add_r by lia. f_equal. lia. }
    assert (B : 2 ^ 62 <= Zpos p * 2 ^ s < 2 ^ 63) by nia.
    pose proof (Z_div_mod (Zpos p * 2 ^ s) 1000 ltac:(lia)) as Q.
    destruct (Z.div_eucl (Zpos p * 2 ^ s) 1000) as [q r].
    apply binary_round_aux_finite; try lia.
    assert (Zdigits2 q <= 54) by (apply digits_upper; lia).
    lia.
  - rewrite Z.min_r by lia. cbn [Z.sub Z.opp Z.add].
    assert (2 ^ 63 <= 2 ^ (d1 - 1)) by (apply Z.pow_le_mono_r; lia).
    pose proof (Z_div_mod (Zpos p) 1000 ltac:(lia)) as Q.
    destruct (Z.div_eucl (Zpos p) 1000) as [q r].
    apply binary_round_aux_finite; try lia.
    assert (E : 2 ^ 1024 = 2 ^ 1015 * 512) by reflexivity.
    assert (Zdigits2 q <= 1015) by (apply digits_upper; lia).
    lia.
Qed.

(** The integer that [round] picks is within one half of the value. *)
Lemma nearest_even_close m p :
  0 <= m ->
  2 * Z.abs (nearest_even m (Zneg p) * 2 ^ Zpos p - m) <= 2 ^ Zpos p.
Proof.
  intros M. cbn [nearest_even].
  set (d := 2 ^ Zpos p).
  assert (D : 0 < d) by (apply Z.pow_pos_nonneg; lia).
  pose proof (Z.div_mod m d ltac:(lia)) as E.
  pose proof (Z.mod_pos_bound m d D) as B.
  destruct (Z.compare_spec (2 * (m mod d)) d) as [C|C|C].
  - destruct (Z.even (m / d)); nia.
  - nia.
  - nia.
Qed.

(** The location of [q + r / 1000] between [q] and [q + 1]. *)
Lemma round_located q r :
  0 <= r < 1000 ->
  let m := round_nearest_even q (new_location 1000 r) in
  q <= m <= q + 1 /\
  2 * Z.abs (1000 * m - (1000 * q + r)) <= 1000.
Proof.
  intros B. unfold new_location. change (Z.even 1000) with true. cbv iota.
  unfold new_location_even.
  destruct (Z.eqb_spec r 0) as [E|E].
  - cbn [round_nearest_even]. lia.
  - destruct (Z.compare_spec (2 * r) 1000) as [C|C|C];
      cbn [round_nearest_even]; try destruct (Z.even q); lia.
Qed.

(** The same after one more bit of [q] has been shifted out. *)
Lemma round_located_shifted q r :
  0 < q -> 0 <= r < 1000 ->
  let mrs := shr_1 (shr_record_of_loc q (new_location 1000 r)) in
  let m := round_nearest_even (shr_m mrs) (loc_of_shr_record mrs) in
  q / 2 <= m <= q / 2 + 1 /\
  2 * Z.abs (2000 * m - (1000 * q + r)) <= 2000.
Proof.
  intros Q B. unfold new_location. change (Z.even 1000) with true.
  cbv iota. unfold new_location_even.
  destruct q as [|q|q]; try lia.
  assert (H : forall p, Zpos p~0 / 2 = Zpos p /\ Zpos p~1 / 2 = Zpos p).
  { intros p. split; symmetry.
    - apply Z.div_unique with 0; lia.
    - apply Z.div_unique with 1; lia. }
  destruct (Z.eqb_spec r 0) as [E|E];
    [|destruct (Z.compare_spec (2 * r) 1000) as [C|C|C]].
  all: destruct q as [p|p|];
    cbn [shr_record_of_loc shr_1 orb shr_m loc_of_shr_record
         round_nearest_even];
    try (destruct (H p) as [H0 H1]; try rewrite H0; try rewrite H1);
    try change (1 / 2) with 0;
    try destruct (Z.even _); lia.
Qed.

Lemma loc_of_record_of_loc m l :
  loc_of_shr_record (shr_record_of_loc m l) = l.
Proof. destruct l as [|[]]; reflexivity. Qed.

(** A quotient of 53 or 54 bits with its remainder by 1000 is rounded to
    the nearest float: [m * 2^(ex + j)] is at most half a unit in the
    last place away from [(q + r / 1000) * 2^ex]. *)
Lemma binary_round_aux_close q r ex :
  2 ^ 52 <= q < 2 ^ 54 -> 0 <= r < 1000 -> -1074 <= ex <= 900 ->
  exists m j,
    0 <= j <= 2 /\
    binary_round_aux prec emax false q ex (new_location 1000 r)
    = S754_finite false m (ex + j) /\
    2 * Z.abs (1000 * (Zpos m * 2 ^ j) - (1000 * q + r)) <= 1000 * 2 ^ j.
Proof.
  intros Q B E.
  (* the first shift *)
  assert (F : exists m1 j1,
             0 <= j1 <= 1 /\ 2 ^ 52 <= m1 <= 2 ^ 53 /\
             (let '(mrs, e1) :=
                shr_fexp prec emax q ex (new_location 1000 r) in
              round_nearest_even (shr_m mrs) (loc_of_shr_record mrs) = m1
              /\ e1 = ex + j1) /\
             2 * Z.abs (1000 * (m1 * 2 ^ j1) - (1000 * q + r))
             <= 1000 * 2 ^ j1).
  { destruct (Z_lt_le_dec q (2 ^ 53)) as [C|C].
    - assert (D : Zdigits2 q = 53) by (apply digits_unique; lia).
      exists (round_nearest_even q (new_location 1000 r)), 0.
      pose proof (round_located q B) as [L1 L2]. cbv zeta in L1, L2.
      split; [lia|]. split; [lia|]. split.
      + unfold shr_fexp, fexp, emin, prec, emax. rewrite D.
        rewrite Z.max_l by lia.
        replace (53 + ex - 53 - ex) with 0 by lia.
        cbn [shr]. rewrite shr_record_of_loc_m, loc_of_record_of_loc.
        split; [reflexivity | lia].
      + change (2 ^ 0) with 1. lia.
    - assert (D : Zdigits2 q = 54) by (apply digits_unique; lia).
      pose proof (@round_located_shifted q r ltac:(lia) B) as [L1 L2].
      cbv zeta in L1, L2.
      eexists. exists 1. split; [lia|].
      assert (2 ^ 52 <= q / 2 < 2 ^ 53).
      { split; [apply Z.div_le_lower_bound | apply Z.div_lt_upper_bound];
          lia. }
      split; [|split].
      2: { unfold shr_fexp, fexp, emin, prec, emax. rewrite D.
           rewrite Z.max_l by lia.
           replace (54 + ex - 53 - ex) with 1 by lia.
           cbn [shr iter_pos]. split; reflexivity. }
      + lia.
      + change (2 ^ 1) with 2. lia. }
  destruct F as [m1 [j1 [J1 [M1 [F A]]]]].
  unfold binary_round_aux.
  destruct (shr_fexp prec emax q ex (new_location 1000 r)) as [mrs e1].
  destruct F as [F ->]. rewrite F.
  pose proof (@shr_fexp_spec m1 (ex + j1) loc_Exact ltac:(lia) ltac:(lia))
    as [D2 [S2 M3]].
  destruct (shr_fexp prec emax m1 (ex + j1) loc_Exact) as [mrs2 e2].
  cbn [fst snd] in *.
  destruct (Z.eq_dec m1 (2 ^ 53)) as [C|C].
  - assert (K : Zdigits2 m1 = 54) by (rewrite C; reflexivity).
    rewrite K in *. change (2 ^ (54 - 53)) with 2 in M3.
    rewrite C in M3. change (2 ^ 53 / 2) with (Zpos (2 ^ 52)) in M3.
    rewrite M3. unfold emax, prec.
    replace (e2 <=? 1024 - 53) with true by (symmetry; apply Z.leb_le; lia).
    exists (2 ^ 52)%positive, (j1 + 1). split; [lia|].
    split; [f_equal; lia|].
    rewrite Z.pow_add_r by lia. change (2 ^ 1) with 2.
    change (Zpos (2 ^ 52)) with (2 ^ 52).
    replace (2 ^ 52 * (2 ^ j1 * 2)) with (m1 * 2 ^ j1)
      by (rewrite C; change (2 ^ 53) with (2 ^ 52 * 2); ring).
    assert (0 < 2 ^ j1) by (apply Z.pow_pos_nonneg; lia). lia.
  - assert (K : Zdigits2 m1 = 53) by (apply digits_unique; lia).
    rewrite K in *. change (2 ^ (53 - 53)) with 1 in M3.
    rewrite Z.div_1_r in M3. rewrite M3.
    destruct m1 as [|m|m]; try lia.
    unfold emax, prec.
    replace (e2 <=? 1024 - 53) with true by (symmetry; apply Z.leb_le; lia).
    exists m, j1. split; [lia|]. split; [f_equal; lia|]. exact A.
Qed.

(** The quotient by 1000 of a positive int below [2^52] is a float
    [m * 2^(-k)] at most half a unit in the last place away from the
    exact quotient, and that unit is below [1 / 500]. *)
Lemma div_1000_close p :
  Zpos p < 2 ^ 52 ->
  exists m k,
    SFdiv prec emax (S754_finite false p 0) (float_of_Z 1000)
    = S754_finite false m (Zneg k) /\
    512 <= 2 ^ Zpos k /\
    Z.abs (1000 * Zpos m - Zpos p * 2 ^ Zpos k) <= 500.
Proof.
  intros U. cbn [float_of_Z SFdiv xorb].
  unfold SFdiv_core_binary.
  change (Zdigits2 1000) with 10.
  set (d1 := Zdigits2 (Zpos p)).
  pose proof (@digits_of_bounds (Zpos p) ltac:(lia)) as [L1 U1].
  fold d1 in L1, U1.
  assert (D1 : 1 <= d1) by (subst d1; cbn [Zdigits2]; lia).
  assert (D2 : d1 <= 52).
  { destruct (Z_le_gt_dec d1 52) as [C|C]; auto.
    assert (2 ^ 52 <= 2 ^ (d1 - 1)) by (apply Z.pow_le_mono_r; lia). lia. }
  unfold fexp, emin, prec, emax.
  replace (d1 + 0 - (10 + 0) - 53) with (d1 - 63) by lia.
  rewrite Z.max_l by lia. change (0 - 0) with 0.
  rewrite Z.min_l by lia.
  replace (0 - (d1 - 63)) with (63 - d1) by lia.
  set (s := 63 - d1).
  assert (M : (match s with
               | 0 => Zpos p
               | Zpos _ => Z.shiftl (Zpos p) s
               | Zneg _ => 0
               end) = Zpos p * 2 ^ s).
  { destruct s eqn:S; try lia.
    rewrite Z.shiftl_mul_pow2 by lia. reflexivity. }
  rewrite M.
  assert (P : 0 < 2 ^ s) by (apply Z.pow_pos_nonneg; lia).
  assert (E1 : 2 ^ 62 = 2 ^ (d1 - 1) * 2 ^ s).
  { rewrite <- Z.pow_add_r by lia. f_equal. lia. }
  assert (E2 : 2 ^ 63 = 2 ^ d1 * 2 ^ s).
  { rewrite <- Z.pow_add_r by lia. f_equal. lia. }
  assert (B : 2 ^ 62 <= Zpos p * 2 ^ s < 2 ^ 63) by nia.
  pose proof (Z_div_mod (Zpos p * 2 ^ s) 1000 ltac:(lia)) as Q.
  destruct (Z.div_eucl (Zpos p * 2 ^ s) 1000) as [q r].
  destruct Q as [Q R].
  destruct (@binary_round_aux_close q r (d1 - 63) ltac:(lia) ltac:(lia)
              ltac:(lia)) as [m [j [J [A C]]]].
  cbv beta iota zeta.
  assert (N : d1 - 63 + j = Zneg (Z.to_pos (s - j))).
  { rewrite <- Pos2Z.opp_pos, Z2Pos.id by lia. lia. }
  rewrite N in A. exists m, (Z.to_pos (s - j)).
  split; [exact A|].
  rewrite Z2Pos.id by lia.
  assert (S1 : 2 ^ s = 2 ^ (s - j) * 2 ^ j).
  { rewrite <- Z.pow_add_r by lia. f_equal. lia. }
  assert (PJ : 0 < 2 ^ j) by (apply Z.pow_pos_nonneg; lia).
  split.
  - change 512 with (2 ^ 9). apply Z.pow_le_mono_r; lia.
  - rewrite <- Q, S1 in C.
    set (a := 2 ^ (s - j)) in *. set (b := 2 ^ j) in *. nia.
Qed.

Lemma nearest_even_nonneg m e : 0 <= m -> 0 <= nearest_even m e.
Proof.
  intros M. destruct e as [|q|q]; cbn [nearest_even].
  - lia.
  - pose proof (Z.pow_pos_nonneg 2 (Zpos q)). nia.
  - set (d := 2 ^ Zpos q).
    assert (D : 0 < d) by (apply Z.pow_pos_nonneg; lia).
    assert (0 <= m / d) by (apply Z.div_pos; lia).
    destruct (2 * (m mod d) ?= d); try destruct (Z.even (m / d)); lia.
Qed.

(** The tenths printed for [v / 1000] are at most 50 metres away from
    [v]. *)
Lemma tenths_close p m k :
  512 <= 2 ^ Zpos k ->
  Z.abs (1000 * Zpos m - Zpos p * 2 ^ Zpos k) <= 500 ->
  Z.abs (100 * nearest_even (10 * Zpos m) (Zneg k) - Zpos p) <= 50.
Proof.
  intros K A.
  pose proof (@nearest_even_close (10 * Zpos m) k ltac:(lia)) as C.
  set (t := nearest_even (10 * Zpos m) (Zneg k)) in *.
  set (d := 2 ^ Zpos k) in *. nia.
Qed.

End Binary64.

(* ================================================================== *)
(** ** The report on a well-formed payload *)

Section Report.
Context {R : Runtime}.

Lemma round_number v :
  number v -> exists n, round v = Return n /\ within_half v n.
Proof.
  destruct v as [| |k|f| | |]; try contradiction.
  - intros _. exists k. split; reflexivity.
  - destruct f as [sg|sg| |sg mt e]; try contradiction; intros _.
    + exists 0%Z. split; reflexivity.
    + eexists. split; [reflexivity|].
      cbn [within_half]. destruct e as [|q|q].
      * destruct sg; cbn [nearest_even]; lia.
      * destruct sg; cbn [nearest_even]; lia.
      * pose proof (@Binary64.nearest_even_close (Zpos mt) q ltac:(lia)).
        destruct sg; lia.
Qed.

(** The formatter on a well-formed payload, up to the visibility. *)
Lemma format_well_formed d w display_name temp feels :
  well_formed d w ->
  round (s_temp w) = Return temp ->
  round (s_feels_like w) = Return feels ->
  Weather._format_weather_info_v25 (PyDict d) display_name =
  try_except
    (visibility <- kilometres w ;;
     positive <- gt_zero visibility ;;
     if positive
     then km <- format_1f visibility ;;
          Return (report display_name w temp feels
                  ++ Weather.visibility_line km)
     else Return (report display_name w temp feels))
    [ValueError; KeyError; TypeError]
    (fun _ => Return Weather.parse_failed).
Proof.
  intros [[dm [M [T [F [Hu P]]]]] _ [dw [rest [W D]]] [dwind [Wi Sp]] V]
         RT RF.
  unfold Weather._format_weather_info_v25.
  cbn [getitem bind]. rewrite M. cbn [getitem bind].
  rewrite T. cbn [bind]. rewrite RT. cbn [bind].
  rewrite F. cbn [bind]. rewrite RF. cbn [bind].
  rewrite Hu. cbn [bind]. rewrite P. cbn [bind].
  rewrite W. cbn [bind getitem0 getitem]. rewrite D. cbn [bind get].
  rewrite Wi. cbn [bind get]. rewrite Sp.
  unfold kilometres, report, dict_get.
  destruct (s_visibility w) as [v|].
  - destruct V as [V _]. rewrite V. reflexivity.
  - rewrite V. reflexivity.
Qed.

Lemma str_nat_digit n : (n < 10)%N -> str_nat n = [(48 + n)%N].
Proof.
  intros L. destruct n as [|p]; [reflexivity|].
  do 4 (destruct p as [p|p|]; try reflexivity; try lia).
Qed.

(** A positive finite float is printed with the digits of its whole part,
    a point and exactly one more digit. *)
Lemma format_1f_shape mt e :
  exists whole tenth,
    (tenth < 10)%N /\
    format_1f_float (S754_finite false mt e)
    = str_nat whole ++ [46; 48 + tenth]%N.
Proof.
  cbn [format_1f_float].
  set (t := nearest_even (10 * Zpos mt) e).
  exists (Z.to_N (t / 10)), (Z.to_N (t mod 10)).
  assert (B : (0 <= t mod 10 < 10)%Z) by (apply Z.mod_pos_bound; lia).
  assert (L : (Z.to_N (t mod 10) < 10)%N) by lia.
  split; auto.
  rewrite (str_nat_digit L). reflexivity.
Qed.

Lemma format_by_visibility d w display_name temp feels :
  well_formed d w ->
  round (s_temp w) = Return temp ->
  round (s_feels_like w) = Return feels ->
  by_visibility d w display_name (report display_name w temp feels).
Proof.
  intros WF RT RF. unfold by_visibility.
  rewrite (format_well_formed display_name WF RT RF).
  pose proof (wf_visibility WF) as V. unfold kilometres.
  destruct (s_visibility w) as [v|]; [|reflexivity].
  destruct V as [_ V].
  destruct v as [|p|p].
  - reflexivity.
  - destruct (@Binary64.div_1000_finite false p ltac:(lia)) as [mt [e E]].
    assert (I : int_truediv (Zpos p) 1000 = Return (S754_finite false mt e)).
    { unfold int_truediv.
      change (float_of_Z (Zpos p)) with (S754_finite false p 0).
      rewrite E. reflexivity. }
    destruct (format_1f_shape mt e) as [whole [tenth [L Sh]]].
    change (0 <? Zpos p)%Z with true. cbv iota.
    exists (S754_finite false mt e), whole, tenth.
    repeat split; auto.
    cbn [truthy Z.eqb negb truediv_1000]. rewrite I. reflexivity.
  - destruct (@Binary64.div_1000_finite true p ltac:(lia)) as [mt [e E]].
    assert (I : int_truediv (Zneg p) 1000 = Return (S754_finite true mt e)).
    { unfold int_truediv.
      change (float_of_Z (Zneg p)) with (S754_finite true p 0).
      rewrite E. reflexivity. }
    change (0 <? Zneg p)%Z with false. cbv iota.
    cbn [truthy Z.eqb negb truediv_1000]. rewrite I. reflexivity.
Qed.

(** *** The numerals *)

Lemma uint_str_string d :
  uint_str d
  = map N_of_ascii
      (list_ascii_of_string (DecimalString.NilEmpty.string_of_uint d)).
Proof.
  induction d;
    cbn [uint_str DecimalString.NilEmpty.string_of_uint
         list_ascii_of_string map];
    try rewrite IHd; reflexivity.
Qed.

Lemma pos_numeral p : uint_str (Pos.to_uint p) = numeral (Zpos p).
Proof.
  unfold numeral.
  cbn [Z.to_int DecimalString.NilZero.string_of_int].
  unfold DecimalString.NilZero.string_of_uint.
  pose proof (DecimalPos.Unsigned.to_uint_nonnil p) as N.
  rewrite uint_str_string.
  destruct (Pos.to_uint p); [contradiction | reflexivity ..].
Qed.

Lemma str_nat_numeral n : str_nat n = numeral (Z.of_N n).
Proof. destruct n as [|p]; [reflexivity | apply pos_numeral]. Qed.

Lemma str_int_numeral n : str_int n = numeral n.
Proof.
  destruct n as [|p|p].
  - reflexivity.
  - apply pos_numeral.
  - change (numeral (Zneg p)) with (45%N :: numeral (Zpos p)).
    cbn [str_int]. f_equal. apply pos_numeral.
Qed.

Lemma report_six_lines display_name w temp feels :
  report display_name w temp feels = six_lines display_name w temp feels.
Proof.
  unfold report, Weather.weather_text, six_lines.
  rewrite !str_int_numeral. reflexivity.
Qed.

(** *** The kilometres *)

(** A positive visibility in the range of a float is divided into a
    positive finite float, which is printed with one digit behind the
    point; below [2^52] metres the printed number is the visibility
    rounded to a tenth of a kilometre. *)
Lemma kilometres_printed p :
  (Zpos p < 2 ^ 1024)%Z ->
  exists mt e (whole tenth : N),
    int_truediv (Zpos p) 1000 = Return (S754_finite false mt e) /\
    (tenth < 10)%N /\
    ((Zpos p < 2 ^ 52)%Z ->
     (Z.abs (100 * (10 * Z.of_N whole + Z.of_N tenth) - Zpos p) <= 50)%Z) /\
    format_1f_float (S754_finite false mt e)
    = numeral (Z.of_N whole) ++ [46; 48 + tenth]%N.
Proof.
  intros U.
  assert (F : exists mt e,
             SFdiv prec emax (S754_finite false p 0) (float_of_Z 1000)
             = S754_finite false mt e /\
             ((Zpos p < 2 ^ 52)%Z ->
              (Z.abs (100 * nearest_even (10 * Zpos mt) e - Zpos p)
               <= 50)%Z)).
  { destruct (Z_lt_le_dec (Zpos p) (2 ^ 52)) as [C|C].
    - destruct (@Binary64.div_1000_close p C) as [mt [k [E [K A]]]].
      exists mt, (Zneg k). split; [exact E|]. intros _.
      exact (@Binary64.tenths_close p mt k K A).
    - destruct (@Binary64.div_1000_finite false p U) as [mt [e E]].
      exists mt, e. split; [exact E | lia]. }
  destruct F as [mt [e [E A]]].
  set (t := nearest_even (10 * Zpos mt) e) in *.
  assert (T : (0 <= t)%Z)
    by (apply Binary64.nearest_even_nonneg; lia).
  assert (B : (0 <= t mod 10 < 10)%Z) by (apply Z.mod_pos_bound; lia).
  assert (Q : (0 <= t / 10)%Z) by (apply Z.div_pos; lia).
  pose proof (Z.div_mod t 10 ltac:(lia)) as D.
  exists mt, e, (Z.to_N (t / 10)), (Z.to_N (t mod 10)).
  split; [|split; [|split]].
  - unfold int_truediv.
    change (float_of_Z (Zpos p)) with (S754_finite false p 0).
    rewrite E. reflexivity.
  - lia.
  - intros C. specialize (A C). rewrite !Z2N.id by lia. lia.
  - cbn [format_1f_float]. fold t.
    assert (L : (Z.to_N (t mod 10) < 10)%N) by lia.
    rewrite (str_nat_digit L), str_nat_numeral. reflexivity.
Qed.

(** *** The whole text *)

(** The formatter on a well-formed payload: the six lines with the two
    rounded temperatures, and what the visibility adds. *)
Lemma format_well_formed_text d w display_name :
  well_formed d w ->
  exists temp feels tail,
    round (s_temp w) = Return temp /\ within_half (s_temp w) temp /\
    round (s_feels_like w) = Return feels /\
    within_half (s_feels_like w) feels /\
    visibility_tail w tail /\
    Weather._format_weather_info_v25 (PyDict d) display_name
    = Return (six_lines display_name w temp feels ++ tail).
Proof.
  intros WF.
  destruct (round_number _ (proj1 (wf_numbers WF))) as [temp [RT HT]].
  destruct (round_number _ (proj2 (wf_numbers WF))) as [feels [RF HF]].
  exists temp, feels.
  rewrite (format_well_formed display_name WF RT RF).
  rewrite report_six_lines.
  pose proof (wf_visibility WF) as V.
  unfold kilometres, visibility_tail.
  destruct (s_visibility w) as [v|].
  2: { exists []. rewrite app_nil_r. repeat split; auto. }
  destruct V as [_ V].
  destruct v as [|p|p].
  - exists []. rewrite app_nil_r. repeat split; auto.
  - destruct (@kilometres_printed p ltac:(lia))
      as [mt [e [whole [tenth [I [L [A P]]]]]]].
    change (0 <? Zpos p)%Z with true. cbv iota.
    eexists. split; [exact RT|]. split; [exact HT|].
    split; [exact RF|]. split; [exact HF|]. split.
    + exists whole, tenth. split; [exact L|]. split; [exact A|].
      reflexivity.
    + cbn [truthy Z.eqb negb truediv_1000]. rewrite I.
      cbn [bind gt_zero SFltb SFcompare try_except format_1f]. rewrite P.
      unfold Weather.visibility_line, Weather.nl.
      rewrite <- !app_assoc. reflexivity.
  - destruct (@Binary64.div_1000_finite true p ltac:(lia)) as [mt [e E]].
    assert (I : int_truediv (Zneg p) 1000 = Return (S754_finite true mt e)).
    { unfold int_truediv.
      change (float_of_Z (Zneg p)) with (S754_finite true p 0).
      rewrite E. reflexivity. }
    change (0 <? Zneg p)%Z with false. cbv iota.
    exists []. rewrite app_nil_r. repeat split; auto.
    cbn [truthy Z.eqb negb truediv_1000]. rewrite I. reflexivity.
Qed.

(** C8.  On a well-formed payload the report is the six lines alone when
    the visibility is absent, zero or negative, and the six lines
    followed by the visibility line when it is positive.  The line reads
    [👁️ 能见度: W.T km] with [W] a numeral and [T] one digit; for a
    visibility below [2^52] metres the number [W.T] is the visibility in
    kilometres rounded to one decimal place, that is at most 50 metres
    away from it. *)
Theorem visibility_line_iff_positive
  (d : list (pystr * pyval)) (w : snapshot) (display_name : pyval) :
  well_formed d w ->
  exists temp feels : Z,
    round (s_temp w) = Return temp /\
    round (s_feels_like w) = Return feels /\
    let lines :=
      lit "🌤️ " ++ str display_name ++ lit " 的天气:" ++ [10%N] ++
      lit "🌡️ 温度: " ++ numeral temp ++ lit "°C (体感 " ++
        numeral feels ++ lit "°C)" ++ [10%N] ++
      lit "💧 湿度: " ++ str (s_humidity w) ++ lit "%" ++ [10%N] ++
      lit "☁️ 天气: " ++ str (s_description w) ++ [10%N] ++
      lit "💨 风速: " ++ str (s_wind_speed w) ++ lit " m/s" ++ [10%N] ++
      lit "🌊 气压: " ++ str (s_pressure w) ++ lit " hPa" in
    match s_visibility w with
    | Some v =>
        if (0 <? v)%Z
        then
          exists whole tenth : N,
            (tenth < 10)%N /\
            ((v < 2 ^ 52)%Z ->
             (Z.abs (100 * (10 * Z.of_N whole + Z.of_N tenth) - v)
              <= 50)%Z) /\
            Weather._format_weather_info_v25 (PyDict d) display_name
            = Return (lines ++ [10%N] ++ lit "👁️ 能见度: " ++
                      numeral (Z.of_N whole) ++ [46; 48 + tenth]%N ++
                      lit " km")
        else
          Weather._format_weather_info_v25 (PyDict d) display_name
          = Return lines
    | None =>
        Weather._format_weather_info_v25 (PyDict d) display_name
        = Return lines
    end.
Proof.
  intros WF.
  destruct (format_well_formed_text display_name WF)
    as [temp [feels [tail [RT [_ [RF [_ [V F]]]]]]]].
  exists temp, feels. split; [exact RT|]. split; [exact RF|].
  cbv zeta. fold (six_lines display_name w temp feels).
  unfold visibility_tail in V.
  destruct (s_visibility w) as [v|].
  - destruct (0 <? v)%Z.
    + destruct V as [whole [tenth [L [A ->]]]].
      exists whole, tenth. split; [exact L|]. split; [exact A|]. exact F.
    + subst tail. rewrite app_nil_r in F. exact F.
  - subst tail. rewrite app_nil_r in F. exact F.
Qed.

(** C9.  On a well-formed payload the second line of the report shows
    the two temperatures as the numerals of the payload's values rounded
    to an integer at most one half away: [🌡️ 温度: T°C (体感 F°C)]. *)
Theorem temperatures_rounded_to_nearest
  (d : list (pystr * pyval)) (w : snapshot) (display_name : pyval) :
  well_formed d w ->
  exists temp feels rest,
    round (s_temp w) = Return temp /\ within_half (s_temp w) temp /\
    round (s_feels_like w) = Return feels /\
    within_half (s_feels_like w) feels /\
    Weather._format_weather_info_v25 (PyDict d) display_name
    = Return (lit "🌤️ " ++ str display_name ++ lit " 的天气:" ++ [10%N] ++
              lit "🌡️ 温度: " ++ numeral temp ++ lit "°C (体感 " ++
              numeral feels ++ lit "°C)" ++ [10%N] ++ rest).
Proof.
  intros WF.
  destruct (format_well_formed_text display_name WF)
    as [temp [feels [tail [RT [HT [RF [HF [_ F]]]]]]]].
  exists temp, feels. rewrite F. unfold six_lines.
  rewrite <- !app_assoc.
  eexists. repeat split; eauto.
Qed.

End Report.

(** *** The report on a concrete payload *)

Lemma sunny_well_formed : well_formed sunny_entries sunny_fields.
Proof.
  constructor.
  - eexists. repeat split; reflexivity.
  - split; exact I.
  - do 2 eexists. split; reflexivity.
  - eexists. split; reflexivity.
  - split; reflexivity.
Qed.

(** 21.6 degrees, felt as 20.1, with 10000 m of visibility. *)
Example sunny_report :
  Weather._format_weather_info_v25 (R := plain_runtime) sunny
    (PyStr (lit "Beijing, CN"))
  = Return (lit "🌤️ Beijing, CN 的天气:" ++ Weather.nl ++
            lit "🌡️ 温度: 22°C (体感 20°C)" ++ Weather.nl ++
            lit "💧 湿度: 45%" ++ Weather.nl ++
            lit "☁️ 天气: 晴" ++ Weather.nl ++
            lit "💨 风速: 3 m/s" ++ Weather.nl ++
            lit "🌊 气压: 1013 hPa" ++ Weather.nl ++
            lit "👁️ 能见度: 10.0 km").
Proof. vm_compute. reflexivity. Qed.

Lemma visibility_line_iff_positive_witness :
  well_formed sunny_entries sunny_fields /\
  Weather._format_weather_info_v25 (R := plain_runtime)
    (PyDict sunny_entries) (PyStr (lit "Beijing, CN"))
  = Return (lit "🌤️ Beijing, CN 的天气:" ++ [10%N] ++
            lit "🌡️ 温度: 22°C (体感 20°C)" ++ [10%N] ++
            lit "💧 湿度: 45%" ++ [10%N] ++
            lit "☁️ 天气: 晴" ++ [10%N] ++
            lit "💨 风速: 3 m/s" ++ [10%N] ++
            lit "🌊 气压: 1013 hPa" ++ [10%N] ++
            lit "👁️ 能见度: 10.0 km").
Proof.
  split; [exact sunny_well_formed|].
  destruct (visibility_line_iff_positive (R := plain_runtime)
              (PyStr (lit "Beijing, CN")) sunny_well_formed)
    as [temp [feels [RT [RF V]]]].
  vm_compute in RT. vm_compute in RF.
  injection RT as <-. injection RF as <-.
  cbv zeta in V. cbn [s_visibility sunny_fields Z.ltb Z.compare] in V.
  destruct V as [whole [tenth [L [A V]]]].
  specialize (A ltac:(reflexivity)).
  assert (W : whole = 10%N) by lia.
  assert (T : tenth = 0%N) by lia.
  subst whole tenth. rewrite V. vm_compute. reflexivity.
Defined.

Lemma temperatures_rounded_to_nearest_witness :
  well_formed sunny_entries sunny_fields /\
  exists rest,
    Weather._format_weather_info_v25 (R := plain_runtime)
      (PyDict sunny_entries) (PyStr (lit "Beijing, CN"))
    = Return (lit "🌤️ Beijing, CN 的天气:" ++ [10%N] ++
              lit "🌡️ 温度: 22°C (体感 20°C)" ++ [10%N] ++ rest).
Proof.
  split; [exact sunny_well_formed|].
  destruct (temperatures_rounded_to_nearest (R := plain_runtime)
              (PyStr (lit "Beijing, CN")) sunny_well_formed)
    as [temp [feels [rest [RT [_ [RF [_ F]]]]]]].
  vm_compute in RT. vm_compute in RF.
  injection RT as <-. injection RF as <-.
  exists rest. rewrite F. vm_compute. reflexivity.
Defined.

(* ================================================================== *)
(** ** Further properties: start-up *)

(** X1.  After [__init__] and [initialize] the plugin is enabled exactly
    when [initialize] returned true, which is exactly when the configured
    key is truthy; the session is open in that case and only then.  A
    configuration without key leaves the plugin disabled. *)
Theorem enabled_iff_key_configured (config : list (pystr * pyval)) :
  let key := dict_get config (lit "api_key") (PyStr []) in
  let result := Lifecycle.initialize (Lifecycle.__init__ config) in
  snd result = truthy key /\
  Lifecycle.self_enabled (fst result) = snd result /\
  (Lifecycle.self_session (fst result) <> None <-> snd result = true) /\
  (lookup (lit "api_key") config = None -> snd result = false).
Proof.
  cbv zeta. unfold Lifecycle.initialize, Lifecycle.__init__.
  cbn [Lifecycle.self_api_key Lifecycle.self_enabled
       Lifecycle.self_session].
  destruct (truthy (dict_get config (lit "api_key") (PyStr []))) eqn:T;
    cbn [negb fst snd Lifecycle.self_enabled Lifecycle.self_session].
  - split; [reflexivity|]. split; [reflexivity|]. split.
    + split; [reflexivity | discriminate].
    + intros L. unfold dict_get in T. rewrite L in T. discriminate.
  - split; [reflexivity|]. split; [reflexivity|]. split.
    + split; [intros N; contradiction | discriminate].
    + reflexivity.
Qed.

Lemma enabled_iff_key_configured_witness :
  snd (Lifecycle.initialize (Lifecycle.__init__ [])) = false.
Proof. apply (enabled_iff_key_configured []). reflexivity. Defined.

(* ================================================================== *)
(** ** Further properties: the two entry points *)

Section EntryPoints.
Context {U : Unicode} {R : Runtime} {B : PluginBase} {S : Session}.

(** X2.  [on_mention] unwraps an envelope only when the event has both a
    [note] and a [type] entry: it then treats the note as [on_message]
    would; any other event it treats exactly as [on_message] does.  A
    note that is not a dictionary makes it raise [AttributeError]. *)
Theorem on_mention_unwraps_envelope (data : list (pystr * pyval)) :
  (Weather.has_key (lit "note") data && Weather.has_key (lit "type") data
   = false ->
   Weather.on_mention data = Weather.on_message data) /\
  (forall note,
     Weather.has_key (lit "type") data = true ->
     lookup (lit "note") data = Some (PyDict note) ->
     Weather.on_mention data = Weather.on_message note) /\
  (forall v,
     Weather.has_key (lit "type") data = true ->
     lookup (lit "note") data = Some v ->
     (forall note, v <> PyDict note) ->
     Weather.on_mention data = Raise AttributeError).
Proof.
  unfold Weather.on_mention, Weather.on_message, Weather.note_of.
  cbv zeta. repeat split.
  - intros E. rewrite E. reflexivity.
  - intros note T N. unfold Weather.has_key at 1. rewrite N, T.
    cbn [andb]. unfold dict_get. rewrite N. reflexivity.
  - intros v T N D. unfold Weather.has_key at 1. rewrite N, T.
    cbn [andb]. unfold dict_get. rewrite N.
    destruct v; try reflexivity. destruct (D d). reflexivity.
Qed.

Lemma handle_reply username location_match r :
  Weather._handle_weather_request username location_match
  = Return (Some r) ->
  handled r = true /\ plugin_name r = name /\ response r <> [] /\
  (r = prompt_reply \/ _validate_plugin_response r = true).
Proof.
  unfold Weather._handle_weather_request. cbv zeta.
  destruct (match location_match with Some _ => _ | None => _ end)
    as [|c location].
  - intros E. inversion E; subst. cbn.
    repeat split; auto. discriminate.
  - destruct (Weather._get_weather (c :: location)) as [v|e] eqn:G;
      cbn [bind]; try discriminate.
    destruct (get_weather_returns _ G) as [s [-> A]].
    pose proof (weather_answer_nonempty A) as N.
    destruct (_validate_plugin_response _) eqn:V; try discriminate.
    intros E. inversion E; subst. cbn [handled plugin_name response].
    repeat split; auto.
    destruct s; [contradiction | discriminate].
Qed.

Lemma process_reply data r :
  Weather._process_weather_message data = Return (Some r) ->
  handled r = true /\ plugin_name r = name /\ response r <> [] /\
  (r = prompt_reply \/ _validate_plugin_response r = true).
Proof.
  unfold Weather._process_weather_message. intros E.
  destruct (get data (lit "text") (PyStr [])) as [text|e];
    cbn [bind] in E; try discriminate.
  destruct (contains_str (lit "天气") text) as [zh|e];
    cbn [bind] in E; try discriminate.
  destruct (if negb zh then _ else _) as [no_keyword|e];
    cbn [bind] in E; try discriminate.
  destruct no_keyword; try discriminate.
  destruct (_extract_username data) as [username|e];
    cbn [bind] in E; try discriminate.
  destruct (Weather.sub_mentions text) as [cleaned|e];
    cbn [bind] in E; try discriminate.
  exact (handle_reply _ _ E).
Qed.

(** X3.  Every reply a handler returns has [handled] set, carries the
    plugin's name and a non-empty response; unless it is the prompt for a
    city, it has passed [_validate_plugin_response]. *)
Theorem replies_are_complete (data : list (pystr * pyval)) (r : reply) :
  Weather.on_message data = Return (Some r) \/
  Weather.on_mention data = Return (Some r) ->
  handled r = true /\ plugin_name r = name /\ response r <> [] /\
  (r = prompt_reply \/ _validate_plugin_response r = true).
Proof.
  intros [E|E].
  - unfold Weather.on_message in E. apply try_except_return in E.
    destruct E as [E|[e [_ E]]]; [|discriminate].
    exact (process_reply _ E).
  - unfold Weather.on_mention in E. cbv zeta in E.
    apply try_except_return in E.
    destruct E as [E|[e [_ E]]]; [|discriminate].
    exact (process_reply _ E).
Qed.

End EntryPoints.

Lemma replies_are_complete_witness :
  response (@prompt_reply base) <> [].
Proof.
  apply (@replies_are_complete basic_unicode plain_runtime base quiet
           (event (PyStr (lit "@bot weather"))) (@prompt_reply base)).
  left. reflexivity.
Defined.

Lemma on_mention_unwraps_envelope_witness :
  @Weather.on_mention basic_unicode plain_runtime base quiet
    [(lit "type", PyStr (lit "mention"));
     (lit "note", PyDict (event (PyStr (lit "hello"))))]
  = @Weather.on_message basic_unicode plain_runtime base quiet
      (event (PyStr (lit "hello"))).
Proof.
  apply (@on_mention_unwraps_envelope basic_unicode plain_runtime base quiet
           [(lit "type", PyStr (lit "mention"));
            (lit "note", PyDict (event (PyStr (lit "hello"))))]);
    reflexivity.
Defined.

(* ================================================================== *)
(** ** Further properties: the geocoding client *)

Section Geocoding.
Context {R : Runtime} {S : Session}.

Lemma coordinates_found
  (city : pystr) (loc : list (pystr * pyval)) (rest : list pyval)
  (nm : pystr) (lat lon : pyval) :
  session_get Weather.geocoding_url (geo_params city)
  = Response 200 (Return (PyList (PyDict loc :: rest))) ->
  lookup (lit "name") loc = Some (PyStr nm) ->
  lookup (lit "lat") loc = Some lat ->
  lookup (lit "lon") loc = Some lon ->
  Weather._get_coordinates city
  = Return (Some (lat, lon,
                  PyStr match lookup (lit "country") loc with
                        | Some country => nm ++ lit ", " ++ str country
                        | None => nm
                        end)).
Proof.
  intros G N La Lo. unfold Weather._get_coordinates. cbv zeta.
  fold (geo_params city). rewrite G.
  cbn [Z.eqb Pos.eqb negb bind truthy getitem0 getitem].
  rewrite N. cbn [bind contains_str].
  destruct (lookup (lit "country") loc) as [country|] eqn:C.
  - cbn [bind getitem iadd_str].
    rewrite La. cbn [bind]. rewrite Lo. reflexivity.
  - cbn [bind getitem]. rewrite La. cbn [bind]. rewrite Lo. reflexivity.
Qed.

(** X4.  When the geocoding endpoint answers 200 with a list whose first
    entry has a string [name], a [lat] and a [lon], the client returns
    that position with the name as display name, followed by a comma, a
    space and the country when the entry has one.  Further entries of
    the list play no role. *)
Theorem coordinates_of_first_entry
  (city : pystr) (loc : list (pystr * pyval)) (rest : list pyval)
  (nm : pystr) (lat lon : pyval) :
  session_get Weather.geocoding_url (geo_params city)
  = Response 200 (Return (PyList (PyDict loc :: rest))) ->
  lookup (lit "name") loc = Some (PyStr nm) ->
  lookup (lit "lat") loc = Some lat ->
  lookup (lit "lon") loc = Some lon ->
  Weather._get_coordinates city
  = Return (Some (lat, lon,
                  PyStr match lookup (lit "country") loc with
                        | Some country => nm ++ lit ", " ++ str country
                        | None => nm
                        end)).
Proof.
  exact (@coordinates_found city loc rest nm lat lon).
Qed.

Lemma geocoding_failure_is_nothing_found_aux (city : pystr) :
  geocoding_fails city -> Weather._get_coordinates city = Return None.
Proof.
  intros F. destruct F as [e G C|status json G N|e G C|data G T|d G
                          |loc rest G N|loc rest nm G N P].
  - exact (coordinates_request_fails city G C).
  - exact (coordinates_bad_status city G N).
  - exact (coordinates_body_fails city G C).
  - exact (coordinates_empty_body city G T).
  - unfold Weather._get_coordinates. cbv zeta.
    fold (geo_params city). rewrite G.
    cbn [Z.eqb Pos.eqb negb bind truthy].
    destruct d; reflexivity.
  - unfold Weather._get_coordinates. cbv zeta.
    fold (geo_params city). rewrite G.
    cbn [Z.eqb Pos.eqb negb bind truthy getitem0 getitem].
    rewrite N. reflexivity.
  - unfold Weather._get_coordinates. cbv zeta.
    fold (geo_params city). rewrite G.
    cbn [Z.eqb Pos.eqb negb bind truthy getitem0 getitem].
    rewrite N. cbn [bind contains_str].
    destruct (lookup (lit "country") loc) as [country|] eqn:C;
      cbn [bind getitem]; try rewrite C; cbn [bind iadd_str].
    + destruct (lookup (lit "lat") loc) as [lat|] eqn:La;
        [|reflexivity].
      cbn [bind]. destruct P as [P|P]; [discriminate|].
      rewrite P. reflexivity.
    + destruct (lookup (lit "lat") loc) as [lat|] eqn:La;
        [|reflexivity].
      cbn [bind]. destruct P as [P|P]; [discriminate|].
      rewrite P. reflexivity.
Qed.

(** X5.  Every failure of the geocoding endpoint listed in
    [geocoding_fails] makes the client return nothing, without an
    exception. *)
Theorem geocoding_failure_is_nothing_found (city : pystr) :
  geocoding_fails city -> Weather._get_coordinates city = Return None.
Proof. exact (@geocoding_failure_is_nothing_found_aux city). Qed.

(** X6.  A failure of the geocoding endpoint reaches the user as the
    apology that the city was not found, with the city quoted in it. *)
Theorem geocoding_failure_reads_not_found (city : pystr) :
  geocoding_fails city ->
  Weather._get_weather city
  = Return (Some (lit "抱歉，找不到城市 '" ++ city ++ lit "' 的位置信息。")).
Proof.
  intros F. unfold Weather._get_weather.
  rewrite (geocoding_failure_is_nothing_found_aux F). reflexivity.
Qed.

End Geocoding.

Lemma coordinates_of_first_entry_witness :
  Weather._get_coordinates (R := plain_runtime)
    (S := session_of (Response 200 (Return beijing)) (RequestFails OSError))
    (lit "Beijing")
  = Return (Some (dec 399 10, dec 1164 10, PyStr (lit "Beijing, CN"))).
Proof.
  exact (@coordinates_of_first_entry plain_runtime
           (session_of (Response 200 (Return beijing)) (RequestFails OSError))
           (lit "Beijing") beijing_entry [] (lit "Beijing")
           (dec 399 10) (dec 1164 10) eq_refl eq_refl eq_refl eq_refl).
Defined.

Lemma no_such_city :
  @geocoding_fails
    (session_of (Response 200 (Return (PyList []))) (RequestFails OSError))
    (lit "Atlantis").
Proof. apply geo_empty_body with (data := PyList []); reflexivity. Qed.

Lemma geocoding_failure_is_nothing_found_witness :
  Weather._get_coordinates (R := plain_runtime)
    (S := session_of (Response 200 (Return (PyList [])))
                     (RequestFails OSError))
    (lit "Atlantis")
  = Return None.
Proof.
  exact (@geocoding_failure_is_nothing_found plain_runtime _ _ no_such_city).
Defined.

Lemma geocoding_failure_reads_not_found_witness :
  Weather._get_weather (R := plain_runtime)
    (S := session_of (Response 200 (Return (PyList [])))
                     (RequestFails OSError))
    (lit "Atlantis")
  = Return (Some (lit "抱歉，找不到城市 'Atlantis' 的位置信息。")).
Proof.
  exact (@geocoding_failure_reads_not_found plain_runtime _ _ no_such_city).
Defined.

(* ================================================================== *)
(** ** Further properties: exceptions of the formatter *)

Section FormatterExceptions.
Context {R : Runtime}.

Lemma getitem_raises v k e :
  getitem v k = Raise e -> e = KeyError \/ e = TypeError.
Proof.
  destruct v; cbn [getitem]; try solve [intros E; inversion E; auto].
  destruct (lookup k d); intros E; inversion E; auto.
Qed.

Lemma getitem0_raises v e :
  getitem0 v = Raise e -> e = IndexError \/ e = KeyError \/ e = TypeError.
Proof.
  destruct v as [| | | |s|l|d]; cbn [getitem0];
    try solve [intros E; inversion E; auto].
  - destruct s; intros E; inversion E; auto.
  - destruct l; intros E; inversion E; auto.
Qed.

Lemma get_raises v k default e :
  get v k default = Raise e -> e = AttributeError.
Proof. destruct v; cbn [get]; intros E; inversion E; auto. Qed.

Lemma round_raises v e :
  round v = Raise e -> e = TypeError \/ e = OverflowError \/ e = ValueError.
Proof.
  destruct v as [| | |f| | |]; cbn [round];
    try solve [intros E; inversion E; auto].
  destruct f; intros E; inversion E; auto.
Qed.

Lemma truediv_1000_raises v e :
  truediv_1000 v = Raise e -> e = OverflowError \/ e = TypeError.
Proof.
  assert (I : forall n x, int_truediv n 1000 = Raise x -> x = OverflowError).
  { intros n x. unfold int_truediv.
    destruct (SFdiv prec emax (float_of_Z n) (float_of_Z 1000));
      intros E; inversion E; auto. }
  destruct v as [|b|n| | | |]; cbn [truediv_1000];
    try solve [intros E; inversion E; auto].
  - destruct (int_truediv (if b then 1 else 0) 1000) eqn:D;
      cbn [bind]; intros E; inversion E; subst.
    left. eapply I; eauto.
  - destruct (int_truediv n 1000) eqn:D;
      cbn [bind]; intros E; inversion E; subst.
    left. eapply I; eauto.
Qed.

Lemma gt_zero_raises v e : gt_zero v = Raise e -> e = TypeError.
Proof. destruct v; cbn [gt_zero]; intros E; inversion E; auto. Qed.

Lemma format_1f_raises v e :
  format_1f v = Raise e -> e = ValueError \/ e = TypeError.
Proof. destruct v; cbn [format_1f]; intros E; inversion E; auto. Qed.

Ltac step_in H :=
  match type of H with
  | context [bind ?o _] =>
      let Eo := fresh "Eo" in
      destruct o eqn:Eo; cbn [bind] in H
  end.

Ltac classify :=
  repeat match goal with
         | H : getitem _ _ = Raise _ |- _ => apply getitem_raises in H
         | H : getitem0 _ = Raise _ |- _ => apply getitem0_raises in H
         | H : get _ _ _ = Raise _ |- _ => apply get_raises in H
         | H : round _ = Raise _ |- _ => apply round_raises in H
         | H : truediv_1000 _ = Raise _ |- _ =>
             apply truediv_1000_raises in H
         | H : gt_zero _ = Raise _ |- _ => apply gt_zero_raises in H
         | H : format_1f _ = Raise _ |- _ => apply format_1f_raises in H
         end.

(** The only exceptions that leave the formatter. *)
Lemma format_raises data display_name e :
  Weather._format_weather_info_v25 data display_name = Raise e ->
  e = IndexError \/ e = AttributeError \/ e = OverflowError.
Proof.
  unfold Weather._format_weather_info_v25, try_except. intros F.
  destruct (bind _ _) as [a|e0] eqn:Body; try discriminate.
  destruct (existsb (issubclass e0) [ValueError; KeyError; TypeError])
    eqn:C; try discriminate.
  inversion F; subst e0. clear F.
  repeat (step_in Body; try discriminate).
  all: try match type of Body with
           | (if ?b then _ else _) = _ => destruct b; try discriminate
           end.
  all: try match goal with
           | H : (if ?b then _ else _) = Raise _ |- _ =>
               destruct b; try discriminate
           end.
  all: inversion Body; subst.
  all: repeat match goal with
              | H : bind ?o _ = Raise _ |- _ =>
                  destruct o eqn:?; cbn [bind] in H;
                  [|inversion H; subst]
              end.
  all: classify.
  all: repeat match goal with
              | H : _ \/ _ |- _ => destruct H
              end; subst; try discriminate; auto.
Qed.

(** X9.  The formatter never returns an empty string, and the only
    exceptions that leave it are [IndexError] (an empty [weather] list or
    string), [AttributeError] (a [wind] entry that is not a dictionary)
    and [OverflowError] (an infinite temperature, a visibility beyond
    the range of a float). *)
Theorem formatter_outcomes (data display_name : pyval) :
  match Weather._format_weather_info_v25 data display_name with
  | Return text => text <> []
  | Raise e => e = IndexError \/ e = AttributeError \/ e = OverflowError
  end.
Proof.
  destruct (Weather._format_weather_info_v25 data display_name) as [text|e]
    eqn:F.
  - exact (formatted_nonempty (format_returns _ _ F)).
  - exact (format_raises _ _ F).
Qed.

End FormatterExceptions.

(* ================================================================== *)
(** ** Further properties: the weather client *)

Section WeatherClient.
Context {R : Runtime} {S : Session}.


Lemma weather_formatted
  (city : pystr) (lat lon display_name data : pyval) :
  Weather._get_coordinates city = Return (Some (lat, lon, display_name)) ->
  session_get Weather.base_url (weather_params lat lon)
  = Response 200 (Return data) ->
  Weather._get_weather city
  = match Weather._format_weather_info_v25 data display_name with
    | Return text => Return (Some text)
    | Raise e => Raise e
    end.
Proof.
  intros G W. unfold Weather._get_weather. rewrite G. cbn [bind].
  fold (weather_params lat lon). rewrite W. cbn [Z.eqb Pos.eqb bind].
  destruct (Weather._format_weather_info_v25 data display_name) as [text|e]
    eqn:F; cbn [bind try_except]; [reflexivity|].
  destruct (format_raises _ _ F) as [->|[->| ->]]; reflexivity.
Qed.

(** X8.  Once the city is located and the weather endpoint answers 200
    with a body, the answer of [_get_weather] is the answer of the
    formatter on that body and on the display name of the geocoding
    entry, exceptions included. *)
Theorem weather_answer_is_formatted
  (city : pystr) (lat lon display_name data : pyval) :
  Weather._get_coordinates city = Return (Some (lat, lon, display_name)) ->
  session_get Weather.base_url (weather_params lat lon)
  = Response 200 (Return data) ->
  Weather._get_weather city
  = match Weather._format_weather_info_v25 data display_name with
    | Return text => Return (Some text)
    | Raise e => Raise e
    end.
Proof.
  exact (@weather_formatted city lat lon display_name data).
Qed.

End WeatherClient.


Lemma weather_answer_is_formatted_witness :
  Weather._get_weather (R := plain_runtime)
    (S := session_of (Response 200 (Return beijing))
                     (Response 200 (Return sunny)))
    (lit "Beijing")
  = match Weather._format_weather_info_v25 (R := plain_runtime) sunny
            (PyStr (lit "Beijing, CN")) with
    | Return text => Return (Some text)
    | Raise e => Raise e
    end.
Proof.
  exact (@weather_answer_is_formatted plain_runtime
           (session_of (Response 200 (Return beijing))
                       (Response 200 (Return sunny)))
           (lit "Beijing") (dec 399 10) (dec 1164 10)
           (PyStr (lit "Beijing, CN")) sunny eq_refl eq_refl).
Defined.

(* ================================================================== *)
(** ** Further properties: fields of the weather payload *)

Section PayloadFields.
Context {R : Runtime}.


(** The formatter once the required fields are read. *)
Lemma format_required d w display_name temp feels :
  required_fields d w ->
  round (s_temp w) = Return temp ->
  round (s_feels_like w) = Return feels ->
  Weather._format_weather_info_v25 (PyDict d) display_name =
  try_except
    (wind <- get (PyDict d) (lit "wind") (PyDict []) ;;
     wind_speed <- get wind (lit "speed") (PyInt 0) ;;
     c <- get (PyDict d) (lit "visibility") PyNone ;;
     visibility <-
       (if truthy c
        then v <- get (PyDict d) (lit "visibility") (PyInt 0) ;;
             truediv_1000 v
        else Return (PyInt 0)) ;;
     let text :=
       Weather.weather_text display_name temp feels
         (s_humidity w) (s_description w) wind_speed (s_pressure w) in
     positive <- gt_zero visibility ;;
     if positive
     then km <- format_1f visibility ;;
          Return (text ++ Weather.visibility_line km)
     else Return text)
    [ValueError; KeyError; TypeError]
    (fun _ => Return Weather.parse_failed).
Proof.
  intros [[dm [M [T [F [Hu P]]]]] [_ [dw [rest [W D]]]]] RT RF.
  unfold Weather._format_weather_info_v25.
  cbn [getitem bind]. rewrite M. cbn [getitem bind].
  rewrite T. cbn [bind]. rewrite RT. cbn [bind].
  rewrite F. cbn [bind]. rewrite RF. cbn [bind].
  rewrite Hu. cbn [bind]. rewrite P. cbn [bind].
  rewrite W. cbn [bind getitem0 getitem]. rewrite D. reflexivity.
Qed.

(** X11.  With the required fields in place, a [wind] entry that is not
    a dictionary (a number, a string, a list, [null]) makes the formatter
    raise [AttributeError], whatever the rest of the payload. *)
Theorem wind_of_wrong_shape_raises
  (d : list (pystr * pyval)) (w : snapshot) (display_name v : pyval) :
  required_fields d w ->
  lookup (lit "wind") d = Some v ->
  (forall dwind, v <> PyDict dwind) ->
  Weather._format_weather_info_v25 (PyDict d) display_name
  = Raise AttributeError.
Proof.
  intros Q Wi N.
  destruct (round_number _ (proj1 (proj1 (proj2 Q)))) as [temp [RT _]].
  destruct (round_number _ (proj2 (proj1 (proj2 Q)))) as [feels [RF _]].
  rewrite (format_required display_name Q RT RF).
  cbn [get bind]. unfold dict_get at 1. rewrite Wi.
  destruct v; try reflexivity. destruct (N d0). reflexivity.
Qed.


(** X13.  On a well-formed payload without [wind], or whose [wind] has
    no [speed], the wind line of the report shows the default 0. *)
Theorem wind_speed_defaults_to_zero
  (d : list (pystr * pyval)) (w : snapshot) (display_name : pyval) :
  well_formed d w ->
  lookup (lit "wind") d = None \/
  (exists dwind,
     lookup (lit "wind") d = Some (PyDict dwind) /\
     lookup (lit "speed") dwind = None) ->
  exists temp feels before after,
    Weather._format_weather_info_v25 (PyDict d) display_name
    = Return (before ++ lit "💨 风速: 0 m/s" ++ after) /\
    before = lit "🌤️ " ++ str display_name ++ lit " 的天气:" ++ Weather.nl ++
             lit "🌡️ 温度: " ++ str_int temp ++ lit "°C (体感 " ++
             str_int feels ++ lit "°C)" ++ Weather.nl ++
             lit "💧 湿度: " ++ str (s_humidity w) ++ lit "%" ++ Weather.nl ++
             lit "☁️ 天气: " ++ str (s_description w) ++ Weather.nl.
Proof.
  intros WF Wi.
  assert (Z : s_wind_speed w = PyInt 0).
  { destruct (wf_wind WF) as [dwind [G Sp]]. rewrite <- Sp.
    unfold dict_get in G.
    destruct Wi as [Wi|[dw' [Wi Sp']]]; rewrite Wi in G;
      inversion G; subst.
    - reflexivity.
    - unfold dict_get. rewrite Sp'. reflexivity. }
  destruct (round_number _ (proj1 (wf_numbers WF))) as [temp [RT _]].
  destruct (round_number _ (proj2 (wf_numbers WF))) as [feels [RF _]].
  assert (F : exists tail,
             Weather._format_weather_info_v25 (PyDict d) display_name
             = Return (report display_name w temp feels ++ tail)).
  { pose proof (format_by_visibility display_name WF RT RF) as V.
    unfold by_visibility in V.
    destruct (s_visibility w) as [v|].
    - destruct (0 <? v)%Z.
      + destruct V as [km [_ [_ [_ [_ [_ V]]]]]]. eauto.
      + exists []. rewrite app_nil_r. exact V.
    - exists []. rewrite app_nil_r. exact V. }
  destruct F as [tail F]. rewrite F.
  exists temp, feels. eexists.
  exists (Weather.nl ++ lit "🌊 气压: " ++ str (s_pressure w)
          ++ lit " hPa" ++ tail).
  split; [|reflexivity].
  unfold report, Weather.weather_text. rewrite Z.
  rewrite <- !app_assoc. vm_compute. reflexivity.
Qed.

End PayloadFields.

(** *** The payload fields on concrete payloads *)



Lemma calm_well_formed : well_formed calm_entries calm_fields.
Proof.
  constructor.
  - eexists. repeat split; reflexivity.
  - split; exact I.
  - do 2 eexists. split; reflexivity.
  - exists []. split; reflexivity.
  - reflexivity.
Qed.

Lemma null_wind_required : required_fields null_wind_entries calm_fields.
Proof.
  split; [|split].
  - eexists. repeat split; reflexivity.
  - split; exact I.
  - do 2 eexists. split; reflexivity.
Qed.

Lemma wind_of_wrong_shape_raises_witness :
  Weather._format_weather_info_v25 (R := plain_runtime)
    (PyDict null_wind_entries) (PyStr (lit "Beijing, CN"))
  = Raise AttributeError.
Proof.
  apply (@wind_of_wrong_shape_raises plain_runtime null_wind_entries
           calm_fields (PyStr (lit "Beijing, CN")) PyNone).
  - exact null_wind_required.
  - reflexivity.
  - discriminate.
Defined.


Lemma wind_speed_defaults_to_zero_witness :
  exists temp feels before after,
    Weather._format_weather_info_v25 (R := plain_runtime)
      (PyDict calm_entries) (PyStr (lit "Beijing, CN"))
    = Return (before ++ lit "💨 风速: 0 m/s" ++ after) /\
    before = lit "🌤️ " ++ lit "Beijing, CN" ++ lit " 的天气:" ++ Weather.nl ++
             lit "🌡️ 温度: " ++ str_int temp ++ lit "°C (体感 " ++
             str_int feels ++ lit "°C)" ++ Weather.nl ++
             lit "💧 湿度: " ++ lit "45" ++ lit "%" ++ Weather.nl ++
             lit "☁️ 天气: " ++ lit "晴" ++ Weather.nl.
Proof.
  exact (@wind_speed_defaults_to_zero plain_runtime calm_entries calm_fields
           (PyStr (lit "Beijing, CN")) calm_well_formed
           (or_introl eq_refl)).
Defined.

(* ================================================================== *)
(** ** Further properties of the matcher *)

Section MatcherSemantics.

(** Whatever the matcher returns comes from its continuation, called
    behind a word of the pattern. *)
Lemma star_loop_sound r k :
  (forall i s g k' x,
     Re.m r i s g k' = Some x ->
     exists w s' g',
       lang r w /\ s = w ++ s' /\ k' (i + List.length w) s' g' = Some x) ->
  forall fuel i s g x,
    Re.star_loop (Re.m r) k fuel i s g = Some x ->
    exists w s' g',
      lang (Re.Star r) w /\ s = w ++ s' /\
      k (i + List.length w) s' g' = Some x.
Proof.
  intros Hr fuel. induction fuel as [|fuel IH]; intros i s g x E;
    cbn [Re.star_loop] in E.
  - exists [], s, g. rewrite Nat.add_0_r. repeat split; auto.
    apply lang_star_nil.
  - destruct (Re.m r i s g _) as [y|] eqn:E1.
    + inversion E; subst y. apply Hr in E1.
      destruct E1 as [w1 [s1 [g1 [L1 [-> K]]]]].
      destruct (Nat.ltb i (i + List.length w1)); try discriminate.
      apply IH in K. destruct K as [w2 [s2 [g2 [L2 [-> K]]]]].
      exists (w1 ++ w2), s2, g2. repeat split.
      * apply lang_star_cons; auto.
      * rewrite app_assoc. reflexivity.
      * rewrite length_app, Nat.add_assoc. exact K.
    + exists [], s, g. rewrite Nat.add_0_r. repeat split; auto.
      apply lang_star_nil.
Qed.

Lemma m_sound r : forall i s g k x,
  Re.m r i s g k = Some x ->
  exists w s' g',
    lang r w /\ s = w ++ s' /\ k (i + List.length w) s' g' = Some x.
Proof.
  induction r as [|c|p|r1 IH1 r2 IH2|r1 IH1 r2 IH2|r1 IH1|n r1 IH1];
    intros i s g k x E; cbn [Re.m] in E.
  - exists [], s, g. rewrite Nat.add_0_r. repeat split; auto.
    apply lang_eps.
  - destruct s as [|a s']; try discriminate.
    destruct (N.eqb_spec a c); try discriminate. subst a.
    exists [c], s', g. rewrite Nat.add_1_r. repeat split; auto.
    apply lang_chr.
  - destruct s as [|a s']; try discriminate.
    destruct (p a) eqn:P; try discriminate.
    exists [a], s', g. rewrite Nat.add_1_r. repeat split; auto.
    apply lang_class; auto.
  - apply IH1 in E. destruct E as [w1 [s1 [g1 [L1 [-> E]]]]].
    apply IH2 in E. destruct E as [w2 [s2 [g2 [L2 [-> E]]]]].
    exists (w1 ++ w2), s2, g2. repeat split.
    + apply lang_seq; auto.
    + rewrite app_assoc. reflexivity.
    + rewrite length_app, Nat.add_assoc. exact E.
  - destruct (Re.m r1 i s g k) as [y|] eqn:E1.
    + inversion E; subst y. apply IH1 in E1.
      destruct E1 as [w [s' [g' [L [-> K]]]]].
      exists w, s', g'. repeat split; auto. apply lang_alt_l; auto.
    + apply IH2 in E. destruct E as [w [s' [g' [L [-> K]]]]].
      exists w, s', g'. repeat split; auto. apply lang_alt_r; auto.
  - exact (star_loop_sound k IH1 _ _ _ _ E).
  - apply IH1 in E. destruct E as [w [s' [g' [L [-> K]]]]].
    exists w, s', ((n, (i, i + List.length w)) :: g').
    repeat split; auto. apply lang_group; auto.
Qed.

(** A greedy star over a character class returns what its continuation
    returns behind the longest run it can take back: here behind [l],
    when the continuation fails behind every longer run. *)
Lemma star_class_stays p k t : forall fuel i g,
  (forall a b, a <> [] -> t = a ++ b -> forallb p a = true ->
               k (i + List.length a) b g = None) ->
  Re.star_loop (Re.m (Re.Class p)) k fuel i t g = k i t g.
Proof.
  induction t as [|c t IH]; intros fuel i g N.
  - destruct fuel; reflexivity.
  - destruct fuel as [|fuel]; [reflexivity|].
    cbn [Re.star_loop Re.m].
    destruct (p c) eqn:P; [|reflexivity].
    replace (Nat.ltb i (S i)) with true
      by (symmetry; apply Nat.ltb_lt; lia).
    rewrite IH.
    + assert (Z : k (S i) t g = None).
      { replace (S i) with (i + List.length [c])
          by (cbn [List.length]; lia).
        apply N; auto; try discriminate.
        cbn [forallb]. rewrite P. reflexivity. }
      rewrite Z. reflexivity.
    + intros a b A E F.
      replace (S i + List.length a) with (i + List.length (c :: a))
        by (cbn [List.length]; lia).
      apply N; try discriminate.
      * rewrite E. reflexivity.
      * cbn [forallb]. rewrite P, F. reflexivity.
Qed.

Lemma star_class_last p k l : forall t fuel i g x,
  forallb p l = true ->
  List.length l <= fuel ->
  k (i + List.length l) t g = Some x ->
  (forall a b, a <> [] -> t = a ++ b -> forallb p a = true ->
               k (i + List.length l + List.length a) b g = None) ->
  Re.star_loop (Re.m (Re.Class p)) k fuel i (l ++ t) g = Some x.
Proof.
  induction l as [|c l IH]; intros t fuel i g x F L K N.
  - cbn [List.length app] in *. rewrite Nat.add_0_r in *.
    rewrite star_class_stays; auto.
  - cbn [forallb] in F. apply andb_prop in F. destruct F as [P F].
    destruct fuel as [|fuel]; [cbn [List.length] in L; lia|].
    cbn [app Re.star_loop Re.m]. rewrite P.
    replace (Nat.ltb i (S i)) with true
      by (symmetry; apply Nat.ltb_lt; lia).
    assert (E : Re.star_loop (Re.m (Re.Class p)) k fuel (S i) (l ++ t) g
                = Some x).
    { apply IH; auto.
      - cbn [List.length] in L. lia.
      - replace (S i + List.length l) with (i + List.length (c :: l))
          by (cbn [List.length]; lia).
        exact K.
      - intros a b A E Fa.
        replace (S i + List.length l + List.length a)
          with (i + List.length (c :: l) + List.length a)
          by (cbn [List.length]; lia).
        apply N; auto. }
    cbn [Re.m] in E. rewrite E. reflexivity.
Qed.

(** A greedy star over a class stops at once in front of a character
    outside the class. *)
Lemma star_class_stops p k s fuel i g :
  stops p s = true ->
  Re.star_loop (Re.m (Re.Class p)) k fuel i s g = k i s g.
Proof.
  intros St. apply star_class_stays.
  intros a b A E F. destruct a as [|c a]; [contradiction|].
  subst s. cbn [app stops forallb] in *.
  apply andb_prop in F. destruct F as [F _].
  rewrite F in St. discriminate.
Qed.

(** The matcher does not depend on where in the text it starts, up to
    the positions it reports. *)
Lemma star_loop_shift step d k k' :
  (forall k1 k1',
     (forall i s g g', shifted d (k1 i s g) (k1' (i + d) s g')) ->
     forall i s g g', shifted d (step i s g k1) (step (i + d) s g' k1')) ->
  (forall i s g g', shifted d (k i s g) (k' (i + d) s g')) ->
  forall fuel i s g g',
    shifted d (Re.star_loop step k fuel i s g)
              (Re.star_loop step k' fuel (i + d) s g').
Proof.
  intros Hs Hk fuel. induction fuel as [|fuel IH]; intros i s g g';
    cbn [Re.star_loop].
  - apply Hk.
  - match goal with
    | |- shifted d (match step i s g ?K1 with _ => _ end)
                   (match step (i + d) s g' ?K2 with _ => _ end) =>
        pose proof (Hs K1 K2) as H
    end.
    cbv beta in H.
    specialize (H ltac:(intros i1 s1 g1 g1';
                        replace (Nat.ltb (i + d) (i1 + d))
                          with (Nat.ltb i i1)
                          by (destruct (Nat.ltb_spec i i1);
                              symmetry; [apply Nat.ltb_lt|apply Nat.ltb_ge];
                              lia);
                        destruct (Nat.ltb i i1); [apply IH | exact I])
                  i s g g').
    destruct (step i s g _) as [[j c]|];
      destruct (step (i + d) s g' _) as [[j' c']|];
      cbn [shifted] in H |- *; try contradiction; auto.
Qed.

Lemma m_shift r d : forall k k',
  (forall i s g g', shifted d (k i s g) (k' (i + d) s g')) ->
  forall i s g g', shifted d (Re.m r i s g k) (Re.m r (i + d) s g' k').
Proof.
  induction r as [|c|p|r1 IH1 r2 IH2|r1 IH1 r2 IH2|r1 IH1|n r1 IH1];
    intros k k' Hk i s g g'; cbn [Re.m].
  - apply Hk.
  - destruct s as [|a s']; [exact I|].
    destruct (N.eqb a c); [apply (Hk (S i)) | exact I].
  - destruct s as [|a s']; [exact I|].
    destruct (p a); [apply (Hk (S i)) | exact I].
  - apply IH1. intros i1 s1 g1 g1'. apply IH2. exact Hk.
  - pose proof (IH1 k k' Hk i s g g') as H1.
    pose proof (IH2 k k' Hk i s g g') as H2.
    destruct (Re.m r1 i s g k) as [[j c]|];
      destruct (Re.m r1 (i + d) s g' k') as [[j' c']|];
      cbn [shifted] in H1 |- *; try contradiction; auto.
  - apply star_loop_shift; auto.
  - apply IH1. intros i1 s1 g1 g1'. apply Hk.
Qed.

Lemma match_at_shift r d i s :
  shifted d (Re.match_at r i s) (Re.match_at r (i + d) s).
Proof.
  unfold Re.match_at. apply m_shift.
  intros i1 s1 g1 g1'. reflexivity.
Qed.

Lemma sub_from_shift r repl d s : forall skip i,
  Re.sub_from r repl skip (i + d) s = Re.sub_from r repl skip i s.
Proof.
  induction s as [|c s IH]; intros skip i.
  - destruct skip; cbn [Re.sub_from]; auto.
    pose proof (match_at_shift r d i []) as H.
    destruct (Re.match_at r i []) as [[j g]|];
      destruct (Re.match_at r (i + d) []) as [[j' g']|];
      cbn [shifted] in H; try contradiction; reflexivity.
  - destruct skip as [|skip]; cbn [Re.sub_from].
    + pose proof (match_at_shift r d i (c :: s)) as H.
      destruct (Re.match_at r i (c :: s)) as [[j g]|];
        destruct (Re.match_at r (i + d) (c :: s)) as [[j' g']|];
        cbn [shifted] in H; try contradiction.
      * subst j'.
        replace (Nat.eqb (j + d) (i + d)) with (Nat.eqb j i)
          by (destruct (Nat.eqb_spec j i);
              symmetry; [apply Nat.eqb_eq|apply Nat.eqb_neq]; lia).
        replace (j + d - (i + d) - 1) with (j - i - 1) by lia.
        rewrite !(IH _ (S i)). reflexivity.
      * rewrite (IH _ (S i)). reflexivity.
    + apply (IH _ (S i)).
Qed.

(** The characters of a match are dropped and the loop goes on behind
    them. *)
Lemma sub_from_skip r repl a : forall b i,
  Re.sub_from r repl (List.length a) i (a ++ b)
  = Re.sub_from r repl 0 (i + List.length a) b.
Proof.
  induction a as [|c a IH]; intros b i.
  - cbn [List.length app]. rewrite Nat.add_0_r. reflexivity.
  - cbn [List.length app Re.sub_from]. rewrite IH.
    f_equal. lia.
Qed.

Lemma stops_no_run p t a b :
  stops p t = true -> a <> [] -> t = a ++ b -> forallb p a = true -> False.
Proof.
  intros St A E F. destruct a as [|c a]; [contradiction|].
  subst t. cbn [app stops forallb] in *.
  apply andb_prop in F. destruct F as [F _].
  rewrite F in St. discriminate.
Qed.

(** The same facts for the patterns [p*] and [p+] over a class [p]. *)
Lemma m_star_class_last p k l t i g x :
  forallb p l = true ->
  k (i + List.length l) t g = Some x ->
  (forall a b, a <> [] -> t = a ++ b -> forallb p a = true ->
               k (i + List.length l + List.length a) b g = None) ->
  Re.m (Re.Star (Re.Class p)) i (l ++ t) g k = Some x.
Proof.
  intros F K N.
  change (Re.star_loop (Re.m (Re.Class p)) k (List.length (l ++ t))
            i (l ++ t) g = Some x).
  apply star_class_last; auto. rewrite length_app. lia.
Qed.

Lemma m_star_class_stops p k s i g :
  stops p s = true -> Re.m (Re.Star (Re.Class p)) i s g k = k i s g.
Proof.
  intros St.
  change (Re.star_loop (Re.m (Re.Class p)) k (List.length s) i s g
          = k i s g).
  apply star_class_stops; auto.
Qed.

Lemma m_plus_class_last p k c l t i g x :
  p c = true ->
  forallb p l = true ->
  k (S i + List.length l) t g = Some x ->
  (forall a b, a <> [] -> t = a ++ b -> forallb p a = true ->
               k (S i + List.length l + List.length a) b g = None) ->
  Re.m (Re.Plus (Re.Class p)) i (c :: l ++ t) g k = Some x.
Proof.
  intros P F K N.
  change (Re.m (Re.Plus (Re.Class p)) i (c :: l ++ t) g k)
    with (if p c
          then Re.m (Re.Star (Re.Class p)) (S i) (l ++ t) g k
          else None).
  rewrite P. apply m_star_class_last; auto.
Qed.

Lemma m_plus_class_fails p k s i g :
  stops p s = true -> Re.m (Re.Plus (Re.Class p)) i s g k = None.
Proof.
  intros St. destruct s as [|c s]; [reflexivity|].
  cbn [stops] in St. apply negb_true_iff in St.
  change (Re.m (Re.Plus (Re.Class p)) i (c :: s) g k)
    with (if p c
          then Re.m (Re.Star (Re.Class p)) (S i) s g k
          else None).
  rewrite St. reflexivity.
Qed.

End MatcherSemantics.

(* ================================================================== *)
(** ** Further properties: mention stripping *)

Section MentionStripping.
Context {U : Unicode}.

(** A match of the mention pattern takes the [@], the whole name and the
    whole run of spaces behind it. *)
Lemma mention_match_exact i name sp rest :
  name <> [] ->
  forallb is_word name = true ->
  forallb is_space sp = true ->
  stops is_word (sp ++ rest) = true ->
  stops is_space rest = true ->
  exists j g,
    Re.match_at MENTION_PATTERN i (at_sign :: name ++ sp ++ rest)
    = Some (j, g) /\
    j = i + 1 + List.length name + List.length sp.
Proof.
  intros N W Sp Sw Ss. destruct name as [|w name]; [contradiction|].
  cbn [forallb] in W. apply andb_prop in W. destruct W as [W1 W].
  do 2 eexists. split.
  - change (Re.match_at MENTION_PATTERN i
              (at_sign :: (w :: name) ++ sp ++ rest))
      with (Re.m (Re.Plus (Re.Class is_word)) (S i)
              (w :: name ++ sp ++ rest) []
              (fun i' s' g' =>
                 Re.m (Re.Star (Re.Class is_space)) i' s' g' Re.accept)).
    apply m_plus_class_last; auto.
    + apply m_star_class_last; auto.
      * reflexivity.
      * intros a b A E F. destruct (@stops_no_run _ _ _ _ Ss A E F).
    + intros a b A E F. destruct (@stops_no_run _ _ _ _ Sw A E F).
  - cbn [List.length]. lia.
Qed.

(** X14.  A mention at the start of the text is removed together with
    the spaces behind it: the name is the whole run of word characters
    behind the [@], and what follows the spaces is stripped in turn. *)
Theorem leading_mention_is_removed (name sp rest : pystr) :
  name <> [] ->
  forallb is_word name = true ->
  forallb is_space sp = true ->
  stops is_word (sp ++ rest) = true ->
  stops is_space rest = true ->
  strip_mentions (at_sign :: name ++ sp ++ rest) = strip_mentions rest.
Proof.
  intros N W Sp Sw Ss.
  destruct (@mention_match_exact 0 name sp rest N W Sp Sw Ss)
    as [j [g [E J]]].
  unfold strip_mentions, Re.sub. cbn [Re.sub_from]. rewrite E.
  replace (Nat.eqb j 0) with false by (symmetry; apply Nat.eqb_neq; lia).
  replace (j - 0 - 1) with (List.length (name ++ sp))
    by (rewrite length_app; lia).
  cbn [app]. rewrite app_assoc, sub_from_skip.
  exact (@sub_from_shift MENTION_PATTERN [] _ rest 0 0).
Qed.

(** X15.  A text in which no [@] is directly followed by a word
    character is left exactly as it is; so is, in particular, every text
    without [@]. *)
Theorem text_without_mention_is_unchanged (s : pystr) :
  clean s = true \/ forallb (fun c => negb (N.eqb c at_sign)) s = true ->
  strip_mentions s = s.
Proof.
  intros H.
  assert (C : clean s = true).
  { destruct H as [H|H]; auto.
    induction s as [|c s IH]; [reflexivity|].
    cbn [forallb] in H. apply andb_prop in H. destruct H as [H1 H2].
    cbn [clean]. rewrite (IH H2), andb_true_r.
    cbn [starts_mention]. destruct s; auto.
    apply negb_true_iff in H1. rewrite H1. reflexivity. }
  exact (@sub_clean _ s 0 C).
Qed.

End MentionStripping.

Lemma leading_mention_is_removed_witness :
  @strip_mentions basic_unicode (lit "@bot  北京天气")
  = @strip_mentions basic_unicode (lit "北京天气").
Proof.
  apply (@leading_mention_is_removed basic_unicode (lit "bot") (lit "  ")
           (lit "北京天气")); try reflexivity.
  discriminate.
Defined.

Lemma text_without_mention_is_unchanged_witness :
  @strip_mentions basic_unicode (lit "mail me @ home 天气")
  = lit "mail me @ home 天气".
Proof.
  apply (@text_without_mention_is_unchanged basic_unicode).
  left. reflexivity.
Defined.

(* ================================================================== *)
(** ** The words of the two patterns *)

Section Words.
Context {U : Unicode}.

Lemma lang_seq_inv r1 r2 w :
  lang (Re.Seq r1 r2) w ->
  exists w1 w2, w = w1 ++ w2 /\ lang r1 w1 /\ lang r2 w2.
Proof. intros L. inversion L; subst. eauto. Qed.

Lemma lang_class_inv p w :
  lang (Re.Class p) w -> exists c, w = [c] /\ p c = true.
Proof. intros L. inversion L; subst. eauto. Qed.

Lemma lang_chr_inv c w : lang (Re.Chr c) w -> w = [c].
Proof. intros L. inversion L; subst. reflexivity. Qed.

Lemma lang_group_inv n r w : lang (Re.Group n r) w -> lang r w.
Proof. intros L. inversion L; subst. assumption. Qed.

Lemma lang_alt_inv r1 r2 w :
  lang (Re.Alt r1 r2) w -> lang r1 w \/ lang r2 w.
Proof. intros L. inversion L; subst; auto. Qed.

Lemma lang_star_class p w :
  lang (Re.Star (Re.Class p)) w -> forallb p w = true.
Proof.
  intros L. remember (Re.Star (Re.Class p)) as r eqn:E.
  induction L; try discriminate.
  - reflexivity.
  - inversion E; subst.
    apply lang_class_inv in L1. destruct L1 as [c [-> P]].
    cbn [app forallb]. rewrite P. apply IHL2. reflexivity.
Qed.

Lemma lang_plus_class p w :
  lang (Re.Plus (Re.Class p)) w ->
  exists c w', w = c :: w' /\ p c = true /\ forallb p w' = true.
Proof.
  intros L. apply lang_seq_inv in L.
  destruct L as [w1 [w2 [-> [L1 L2]]]].
  apply lang_class_inv in L1. destruct L1 as [c [-> P]].
  apply lang_star_class in L2. exists c, w2. auto.
Qed.

Lemma lang_str p r w :
  lang (Re.Str p r) w -> exists w', w = p ++ w' /\ lang r w'.
Proof.
  revert w. induction p as [|c p IH]; intros w L; cbn [Re.Str] in L.
  - exists w. auto.
  - apply lang_seq_inv in L. destruct L as [w1 [w2 [-> [L1 L2]]]].
    apply lang_chr_inv in L1. subst w1.
    apply IH in L2. destruct L2 as [w' [-> L2]].
    exists w'. auto.
Qed.

Lemma lang_keyword r w :
  lang (keyword_then r) w ->
  exists kw w', keyword kw /\ w = kw ++ w' /\ lang r w'.
Proof.
  intros L. apply lang_alt_inv in L. destruct L as [L|L];
    apply lang_str in L; destruct L as [w' [-> L]].
  - exists (lit "天气"), w'. repeat split; auto. left. reflexivity.
  - exists (lit "weather"), w'. repeat split; auto. right. reflexivity.
Qed.

(** A run of letters ends with a letter. *)
Lemma run_ends (p : codepoint -> bool) (c : codepoint) (l : pystr) :
  p c = true -> forallb p l = true ->
  exists w z, c :: l = w ++ [z] /\ p z = true.
Proof.
  revert c. induction l as [|d l IH]; intros c P F.
  - exists [], c. auto.
  - cbn [forallb] in F. apply andb_prop in F. destruct F as [Pd F].
    destruct (IH d Pd F) as [w [z [E Z]]].
    exists (c :: w), z. rewrite E. auto.
Qed.

(** A city phrase starts and ends with a letter. *)
Lemma lang_more_words w :
  lang (Re.Star (Re.Seq (Re.Plus (Re.Class is_space))
                        (Re.Plus (Re.Class city_letter)))) w ->
  w = [] \/ exists w0 z, w = w0 ++ [z] /\ city_letter z = true.
Proof.
  intros L.
  remember (Re.Star (Re.Seq (Re.Plus (Re.Class is_space))
                            (Re.Plus (Re.Class city_letter)))) as r eqn:E.
  induction L; try discriminate.
  - left. reflexivity.
  - inversion E; subst. right.
    destruct (IHL2 eq_refl) as [->|[w0 [z [-> Z]]]].
    + rewrite app_nil_r.
      apply lang_seq_inv in L1. destruct L1 as [a [b [-> [_ Lb]]]].
      apply lang_plus_class in Lb. destruct Lb as [c [l [-> [P F]]]].
      destruct (run_ends city_letter c l P F) as [w0 [z [E' Z]]].
      exists (a ++ w0), z. rewrite E', app_assoc. auto.
    + exists (w1 ++ w0), z. rewrite app_assoc. auto.
Qed.

Lemma lang_city_phrase w :
  lang city_phrase w ->
  (exists c w', w = c :: w' /\ city_letter c = true) /\
  (exists w0 z, w = w0 ++ [z] /\ city_letter z = true).
Proof.
  intros L. apply lang_seq_inv in L.
  destruct L as [w1 [w2 [-> [L1 L2]]]].
  apply lang_plus_class in L1. destruct L1 as [c [l [-> [P F]]]].
  split.
  - exists c, (l ++ w2). auto.
  - apply lang_more_words in L2.
    destruct L2 as [->|[w0 [z [-> Z]]]].
    + rewrite app_nil_r. apply run_ends; auto.
    + exists ((c :: l) ++ w0), z. rewrite app_assoc. auto.
Qed.

End Words.

(* ================================================================== *)
(** ** Further properties: the location pattern *)

Section LocationPattern.
Context {U : Unicode}.

Lemma m_str_match p r : forall i s g k,
  Re.m (Re.Str p r) i (p ++ s) g k = Re.m r (i + List.length p) s g k.
Proof.
  induction p as [|c p IH]; intros i s g k.
  - cbn [Re.Str app List.length]. rewrite Nat.add_0_r. reflexivity.
  - cbn [Re.Str app List.length].
    change (Re.m (Re.Seq (Re.Chr c) (Re.Str p r)) i (c :: p ++ s) g k)
      with (if N.eqb c c then Re.m (Re.Str p r) (S i) (p ++ s) g k
            else None).
    rewrite N.eqb_refl, IH. f_equal. lia.
Qed.

Lemma m_str_needs_prefix p r : forall i s g k x,
  Re.m (Re.Str p r) i s g k = Some x -> prefix p s = true.
Proof.
  induction p as [|c p IH]; intros i s g k x E.
  - reflexivity.
  - cbn [Re.Str] in E.
    change (Re.m (Re.Seq (Re.Chr c) (Re.Str p r)) i s g k)
      with (match s with
            | a :: s' =>
                if N.eqb a c then Re.m (Re.Str p r) (S i) s' g k else None
            | [] => None
            end) in E.
    destruct s as [|a s']; try discriminate.
    cbn [prefix]. rewrite N.eqb_sym.
    destruct (N.eqb a c); try discriminate.
    apply IH in E. rewrite E. reflexivity.
Qed.

Lemma keyword_match r kw i s g k :
  keyword kw ->
  Re.m (keyword_then r) i (kw ++ s) g k
  = Re.m r (i + List.length kw) s g k.
Proof.
  intros [->| ->]; unfold keyword_then.
  - change (Re.m (Re.Alt ?a ?b) i ?t g k)
      with (match Re.m a i t g k with
            | Some x => Some x
            | None => Re.m b i t g k
            end).
    rewrite m_str_match.
    destruct (Re.m r _ s g k); reflexivity.
  - change (Re.m (Re.Alt ?a ?b) i ?t g k)
      with (Re.m b i t g k).
    apply m_str_match.
Qed.

Lemma keyword_fails r i s g k :
  starts_keyword s = false -> Re.m (keyword_then r) i s g k = None.
Proof.
  unfold starts_keyword, keyword_then. intros E.
  apply orb_false_elim in E. destruct E as [E1 E2].
  change (Re.m (Re.Alt ?a ?b) i s g k)
    with (match Re.m a i s g k with
          | Some x => Some x
          | None => Re.m b i s g k
          end).
  destruct (Re.m (Re.Str (lit "天气") r) i s g k) eqn:M1.
  - apply m_str_needs_prefix in M1. congruence.
  - destruct (Re.m (Re.Str (lit "weather") r) i s g k) eqn:M2; auto.
    apply m_str_needs_prefix in M2. congruence.
Qed.

(** Further words of a phrase need a space first. *)
Lemma more_words_skip r k s i g :
  stops is_space s = true ->
  Re.m (Re.Star (Re.Seq (Re.Plus (Re.Class is_space)) r)) i s g k
  = k i s g.
Proof.
  intros St.
  change (Re.star_loop
            (Re.m (Re.Seq (Re.Plus (Re.Class is_space)) r)) k
            (List.length s) i s g = k i s g).
  destruct (List.length s) as [|fuel]; [reflexivity|].
  cbn [Re.star_loop].
  change (Re.m (Re.Seq (Re.Plus (Re.Class is_space)) r) i s g ?K)
    with (Re.m (Re.Plus (Re.Class is_space)) i s g
            (fun i' s' g' => Re.m r i' s' g' K)).
  rewrite m_plus_class_fails; auto.
Qed.

Lemma in_proper_suffixes (a b : pystr) :
  a <> [] -> In b (proper_suffixes (a ++ b)).
Proof.
  induction a as [|c a IH]; intros N; [contradiction|].
  cbn [app proper_suffixes]. destruct a as [|d a].
  - left. reflexivity.
  - right. apply IH. discriminate.
Qed.

Lemma letters_stop_spaces s :
  letters_are_not_spaces ->
  forallb city_letter s = true -> stops is_space s = true.
Proof.
  intros H F. destruct s as [|c s]; [reflexivity|].
  cbn [forallb] in F. apply andb_prop in F. destruct F as [F _].
  cbn [stops]. rewrite (H c F). reflexivity.
Qed.

Lemma keyword_letters kw :
  keyword kw ->
  forallb city_letter kw = true /\ no_later_keyword kw = true /\
  forallb (fun c => negb (N.eqb c at_sign)) kw = true.
Proof. intros [->| ->]; repeat split; reflexivity. Qed.

(** The first alternative of the pattern on a name directly followed by
    a keyword. *)
Lemma city_first_match i c city kw :
  letters_are_not_spaces ->
  city_letter c = true ->
  forallb city_letter city = true ->
  keyword kw ->
  Re.match_at LOCATION_PATTERN i (c :: city ++ kw)
  = Some (S i + List.length city + List.length kw,
          [(1, (i, S i + List.length city))]).
Proof.
  intros H C F K.
  destruct (keyword_letters K) as [KL [KN _]].
  assert (M : Re.m (Re.Plus (Re.Class city_letter)) i (c :: city ++ kw) []
                (fun i1 s1 g1 =>
                   Re.m (Re.Star (Re.Seq (Re.Plus (Re.Class is_space))
                                         (Re.Plus (Re.Class city_letter))))
                     i1 s1 g1
                     (fun i2 s2 g2 =>
                        Re.m (keyword_then Re.Eps) i2 s2
                          ((1, (i, i2)) :: g2) Re.accept))
              = Some (S i + List.length city + List.length kw,
                      [(1, (i, S i + List.length city))])).
  { apply m_plus_class_last; auto.
    - rewrite more_words_skip by (apply letters_stop_spaces; auto).
      rewrite <- (app_nil_r kw) at 1.
      rewrite keyword_match by auto. reflexivity.
    - intros a b A E Fa.
      assert (Fb : forallb city_letter b = true).
      { rewrite E, forallb_app in KL. apply andb_prop in KL. tauto. }
      rewrite more_words_skip by (apply letters_stop_spaces; auto).
      apply keyword_fails.
      unfold no_later_keyword in KN. rewrite forallb_forall in KN.
      apply negb_true_iff. apply KN. rewrite E.
      apply in_proper_suffixes; auto. }
  unfold Re.match_at, LOCATION_PATTERN.
  change (Re.m (Re.Alt ?a ?b) i ?t [] Re.accept)
    with (match Re.m a i t [] Re.accept with
          | Some x => Some x
          | None => Re.m b i t [] Re.accept
          end).
  change (Re.m (Re.Seq (Re.Group 1 city_phrase) (keyword_then Re.Eps))
            i (c :: city ++ kw) [] Re.accept)
    with (Re.m (Re.Plus (Re.Class city_letter)) i (c :: city ++ kw) []
            (fun i1 s1 g1 =>
               Re.m (Re.Star (Re.Seq (Re.Plus (Re.Class is_space))
                                     (Re.Plus (Re.Class city_letter))))
                 i1 s1 g1
                 (fun i2 s2 g2 =>
                    Re.m (keyword_then Re.Eps) i2 s2 ((1, (i, i2)) :: g2)
                      Re.accept))).
  rewrite M. reflexivity.
Qed.

End LocationPattern.

(* ================================================================== *)
(** ** Further properties: which city is looked up *)

Section Lookup.
Context {U : Unicode} {R : Runtime} {B : PluginBase} {S : Session}.

Lemma prefix_app (p s : pystr) : prefix p (p ++ s) = true.
Proof.
  induction p as [|c p IH]; [reflexivity|].
  cbn [app prefix]. rewrite N.eqb_refl. exact IH.
Qed.

Lemma contains_app (p a b : pystr) : contains p (a ++ p ++ b) = true.
Proof.
  induction a as [|c a IH].
  - cbn [app]. destruct (p ++ b) eqn:E; cbn [contains];
      rewrite <- E, prefix_app; reflexivity.
  - cbn [app contains]. rewrite IH. apply orb_true_r.
Qed.

Lemma contains_start (p b : pystr) : contains p (p ++ b) = true.
Proof. exact (contains_app p [] b). Qed.

Lemma no_at_clean (s : pystr) :
  forallb (fun c => negb (N.eqb c at_sign)) s = true -> clean s = true.
Proof.
  induction s as [|c s IH]; intros H; [reflexivity|].
  cbn [forallb] in H. apply andb_prop in H. destruct H as [H1 H2].
  cbn [clean]. rewrite (IH H2), andb_true_r.
  cbn [starts_mention]. destruct s; auto.
  apply negb_true_iff in H1. rewrite H1. reflexivity.
Qed.

Lemma letters_no_at (s : pystr) :
  forallb city_letter s = true ->
  forallb (fun c => negb (N.eqb c at_sign)) s = true.
Proof.
  induction s as [|c s IH]; intros F; [reflexivity|].
  cbn [forallb] in *. apply andb_prop in F. destruct F as [F1 F2].
  rewrite (IH F2), andb_true_r.
  destruct (N.eqb_spec c at_sign) as [->|]; [discriminate | reflexivity].
Qed.

Lemma lstrip_stops (s : pystr) : stops is_space s = true -> lstrip s = s.
Proof.
  destruct s as [|c s]; [reflexivity|]. cbn [stops lstrip].
  intros E. apply negb_true_iff in E. rewrite E. reflexivity.
Qed.

(** A name made of letters has nothing for [strip] to remove. *)
Lemma strip_letters (s : pystr) :
  letters_are_not_spaces ->
  forallb city_letter s = true -> strip s = s.
Proof.
  intros H F. unfold strip.
  rewrite (lstrip_stops s) by (apply letters_stop_spaces; auto).
  rewrite lstrip_stops; [apply rev_involutive|].
  apply letters_stop_spaces; auto.
  apply forallb_forall. intros x I. apply in_rev in I.
  rewrite forallb_forall in F. auto.
Qed.

Lemma handle_located username mo c city :
  strip (Weather.or_else (Re.group mo 1)
           (Weather.or_else (Re.group mo 2) [])) = c :: city ->
  Weather._handle_weather_request username (Some mo)
  = answer_for (c :: city).
Proof.
  intros E. unfold Weather._handle_weather_request, answer_for.
  cbv zeta. rewrite E. reflexivity.
Qed.

Lemma process_city_before_keyword
  (note : list (pystr * pyval)) (city kw username : pystr) :
  letters_are_not_spaces ->
  city <> [] ->
  forallb city_letter city = true ->
  keyword kw ->
  text_of note = PyStr (city ++ kw) ->
  _extract_username (PyDict note) = Return username ->
  Weather._process_weather_message (PyDict note) = answer_for city.
Proof.
  intros H N F K T X. destruct city as [|c city]; [contradiction|].
  cbn [forallb] in F. apply andb_prop in F. destruct F as [F1 F2].
  destruct (keyword_letters K) as [KL [_ KA]].
  assert (Kw : contains kw_zh ((c :: city) ++ kw)
               || contains kw_en ((c :: city) ++ kw) = true).
  { destruct K as [->| ->].
    - rewrite <- (app_nil_r (lit "天气")).
      unfold kw_zh. rewrite contains_app. reflexivity.
    - rewrite <- (app_nil_r (lit "weather")).
      unfold kw_en. rewrite contains_app. apply orb_true_r. }
  rewrite (process_keyword note T Kw), X. cbn [bind].
  assert (St : strip_mentions ((c :: city) ++ kw) = (c :: city) ++ kw).
  { apply (@sub_clean _ _ 0). apply no_at_clean.
    rewrite forallb_app. apply andb_true_intro. split; [|exact KA].
    apply letters_no_at. cbn [forallb]. rewrite F1, F2. reflexivity. }
  rewrite St. unfold Re.search. cbn [app Re.search_from].
  rewrite (@city_first_match _ 0 c city kw H F1 F2 K).
  apply handle_located.
  unfold Re.group.
  cbn [Re.m_caps Re.m_string Re.span Nat.eqb Weather.or_else skipn].
  replace (1 + List.length city - 0) with (List.length (c :: city))
    by (cbn [List.length]; lia).
  change (c :: city ++ kw) with ((c :: city) ++ kw).
  rewrite firstn_app, Nat.sub_diag, firstn_all. cbn [firstn].
  rewrite app_nil_r. cbn [Weather.or_else].
  apply strip_letters; auto. cbn [forallb]. rewrite F1, F2. reflexivity.
Qed.

(** X16.  A text that is a name of CJK or Latin letters directly
    followed by ["天气"] or ["weather"] makes the handler look up exactly
    that name: the weather is fetched for it and wrapped into the
    reply. *)
Theorem city_before_keyword_is_looked_up
  (note : list (pystr * pyval)) (city kw username : pystr) :
  letters_are_not_spaces ->
  city <> [] ->
  forallb city_letter city = true ->
  keyword kw ->
  text_of note = PyStr (city ++ kw) ->
  _extract_username (PyDict note) = Return username ->
  Weather._process_weather_message (PyDict note) = answer_for city.
Proof. exact (@process_city_before_keyword note city kw username). Qed.

End Lookup.

Section KeywordFirst.
Context {U : Unicode}.

(** The first alternative finds no name in front of a keyword when the
    only keyword of the text is at its start. *)
Lemma city_first_fails i t :
  no_later_keyword t = true ->
  Re.m (Re.Seq (Re.Group 1 city_phrase) (keyword_then Re.Eps))
    i t [] Re.accept = None.
Proof.
  intros NL.
  destruct (Re.m _ i t [] Re.accept) as [x|] eqn:M; [|reflexivity].
  apply m_sound in M. destruct M as [w [s' [g' [L [E _]]]]].
  apply lang_seq_inv in L. destruct L as [w1 [w2 [-> [L1 L2]]]].
  apply lang_group_inv, lang_city_phrase in L1.
  destruct L1 as [[c [w1' [-> _]]] _].
  apply lang_keyword in L2. destruct L2 as [kw [w' [K [-> _]]]].
  unfold no_later_keyword in NL. rewrite forallb_forall in NL.
  assert (I : In (kw ++ w' ++ s') (proper_suffixes t)).
  { rewrite E, <- !app_assoc. apply in_proper_suffixes. discriminate. }
  apply NL in I. apply negb_true_iff in I.
  unfold starts_keyword in I. apply orb_false_elim in I.
  destruct K as [->| ->]; rewrite prefix_app in I;
    destruct I; discriminate.
Qed.

(** The second alternative on a keyword, spaces and a name. *)
Lemma keyword_first_match i kw sp c city :
  letters_are_not_spaces ->
  keyword kw ->
  forallb is_space sp = true ->
  city_letter c = true ->
  forallb city_letter city = true ->
  no_later_keyword (kw ++ sp ++ c :: city) = true ->
  Re.match_at LOCATION_PATTERN i (kw ++ sp ++ c :: city)
  = Some (S (i + List.length kw + List.length sp) + List.length city,
          [(2, (i + List.length kw + List.length sp,
                S (i + List.length kw + List.length sp)
                + List.length city))]).
Proof.
  intros H K Sp C F NL.
  unfold Re.match_at, LOCATION_PATTERN.
  change (Re.m (Re.Alt ?a ?b) i ?t [] Re.accept)
    with (match Re.m a i t [] Re.accept with
          | Some x => Some x
          | None => Re.m b i t [] Re.accept
          end).
  rewrite city_first_fails by exact NL.
  rewrite keyword_match by exact K.
  change (Re.m (Re.Seq (Re.Star (Re.Class is_space))
                       (Re.Group 2 city_phrase)) ?j ?t [] Re.accept)
    with (Re.m (Re.Star (Re.Class is_space)) j t []
            (fun i1 s1 g1 =>
               Re.m (Re.Plus (Re.Class city_letter)) i1 s1 g1
                 (fun i2 s2 g2 =>
                    Re.m (Re.Star (Re.Seq (Re.Plus (Re.Class is_space))
                                          (Re.Plus (Re.Class city_letter))))
                      i2 s2 g2
                      (fun i3 s3 g3 =>
                         Re.accept i3 s3 ((2, (i1, i3)) :: g3))))).
  apply m_star_class_last; auto.
  - rewrite <- (app_nil_r city) at 1.
    apply m_plus_class_last; auto.
    intros a b A E _. symmetry in E. apply app_eq_nil in E.
    destruct E. contradiction.
  - intros a b A E Fa.
    assert (St : stops is_space (c :: city) = true).
    { cbn [stops]. rewrite (H c C). reflexivity. }
    destruct (@stops_no_run _ _ _ _ St A E Fa).
Qed.

End KeywordFirst.

Section LookupKeywordFirst.
Context {U : Unicode} {R : Runtime} {B : PluginBase} {S : Session}.

(** X17.  A text that is ["天气"] or ["weather"], then spaces or
    nothing, then a name of CJK or Latin letters makes the handler look
    up exactly that name, provided no keyword occurs again behind the
    start of the text. *)
Theorem city_behind_keyword_is_looked_up
  (note : list (pystr * pyval)) (kw sp city username : pystr) :
  letters_are_not_spaces ->
  is_space at_sign = false ->
  keyword kw ->
  forallb is_space sp = true ->
  city <> [] ->
  forallb city_letter city = true ->
  no_later_keyword (kw ++ sp ++ city) = true ->
  text_of note = PyStr (kw ++ sp ++ city) ->
  _extract_username (PyDict note) = Return username ->
  Weather._process_weather_message (PyDict note) = answer_for city.
Proof.
  intros H A K Sp N F NL T X. destruct city as [|c city]; [contradiction|].
  pose proof F as F'.
  cbn [forallb] in F. apply andb_prop in F. destruct F as [F1 F2].
  destruct (keyword_letters K) as [KL [_ KA]].
  assert (Kw : contains kw_zh (kw ++ sp ++ c :: city)
               || contains kw_en (kw ++ sp ++ c :: city) = true).
  { destruct K as [->| ->].
    - unfold kw_zh. rewrite contains_start. reflexivity.
    - unfold kw_en. rewrite contains_start. apply orb_true_r. }
  rewrite (process_keyword note T Kw), X. cbn [bind].
  assert (St : strip_mentions (kw ++ sp ++ c :: city)
               = kw ++ sp ++ c :: city).
  { apply (@sub_clean _ _ 0). apply no_at_clean.
    rewrite !forallb_app. apply andb_true_intro. split; [exact KA|].
    apply andb_true_intro. split; [|apply letters_no_at; exact F'].
    apply forallb_forall. intros x I.
    rewrite forallb_forall in Sp. specialize (Sp x I).
    destruct (N.eqb_spec x at_sign) as [->|]; [congruence | reflexivity]. }
  rewrite St. unfold Re.search.
  assert (M := @keyword_first_match _ 0 kw sp c city H K Sp F1 F2 NL).
  destruct (kw ++ sp ++ c :: city) as [|t0 t] eqn:Tx.
  { destruct K as [->| ->]; discriminate. }
  cbn [Re.search_from]. rewrite M. rewrite <- Tx.
  apply handle_located.
  unfold Re.group.
  cbn [Re.m_caps Re.m_string Re.span Nat.eqb Weather.or_else].
  replace (0 + List.length kw + List.length sp)
    with (List.length (kw ++ sp)) by (rewrite length_app; lia).
  replace (Datatypes.S (List.length (kw ++ sp)) + List.length city
           - List.length (kw ++ sp))
    with (List.length (c :: city)) by (cbn [List.length]; lia).
  rewrite app_assoc, skipn_app, skipn_all, Nat.sub_diag.
  cbn [skipn app]. rewrite firstn_all. cbn [Weather.or_else].
  apply strip_letters; auto.
Qed.

End LookupKeywordFirst.

(* ================================================================== *)
(** ** Further properties: where the location pattern matches *)

Section Adjacency.
Context {U : Unicode}.

Lemma search_from_found r text s : forall i mo,
  Re.search_from r text i s = Some mo ->
  exists pre rest x,
    s = pre ++ rest /\
    Re.match_at r (i + List.length pre) rest = Some x.
Proof.
  induction s as [|c s IH]; intros i mo E; cbn [Re.search_from] in E.
  - destruct (Re.match_at r i []) as [x|] eqn:M; [|discriminate].
    exists [], [], x. rewrite Nat.add_0_r. auto.
  - destruct (Re.match_at r i (c :: s)) as [x|] eqn:M.
    + exists [], (c :: s), x. rewrite Nat.add_0_r. auto.
    + apply IH in E. destruct E as [pre [rest [x [-> M']]]].
      exists (c :: pre), rest, x. split; [reflexivity|].
      cbn [List.length]. rewrite Nat.add_succ_r. exact M'.
Qed.

(** X18.  The location pattern matches only at a keyword that is
    directly preceded by a CJK or Latin letter, or that is followed, after
    spaces or nothing, by such a letter: behind the name no space is
    allowed, in front of it any number. *)
Theorem location_match_needs_adjacent_letter
  (text : pystr) (mo : Re.match_obj) :
  Re.search LOCATION_PATTERN text = Some mo ->
  exists pre kw post,
    text = pre ++ kw ++ post /\ keyword kw /\
    ((exists pre' z, pre = pre' ++ [z] /\ city_letter z = true) \/
     (exists sp c post',
        post = sp ++ c :: post' /\ forallb is_space sp = true /\
        city_letter c = true)).
Proof.
  intros E. unfold Re.search in E. apply search_from_found in E.
  destruct E as [pre [rest [x [-> M]]]].
  unfold Re.match_at in M. apply m_sound in M.
  destruct M as [w [s' [g' [L [-> _]]]]].
  unfold LOCATION_PATTERN in L. apply lang_alt_inv in L.
  destruct L as [L|L].
  - apply lang_seq_inv in L. destruct L as [w1 [w2 [-> [L1 L2]]]].
    apply lang_group_inv, lang_city_phrase in L1.
    destruct L1 as [_ [w0 [z [-> Z]]]].
    apply lang_keyword in L2. destruct L2 as [kw [w' [K [-> _]]]].
    exists (pre ++ w0 ++ [z]), kw, (w' ++ s'). repeat split; auto.
    + rewrite <- !app_assoc. reflexivity.
    + left. exists (pre ++ w0), z. rewrite <- app_assoc. auto.
  - apply lang_keyword in L. destruct L as [kw [w' [K [-> L]]]].
    apply lang_seq_inv in L. destruct L as [sp [w2 [-> [L1 L2]]]].
    apply lang_star_class in L1.
    apply lang_group_inv, lang_city_phrase in L2.
    destruct L2 as [[c [w2' [-> C]]] _].
    exists pre, kw, ((sp ++ c :: w2') ++ s'). repeat split; auto.
    + rewrite <- !app_assoc. reflexivity.
    + right. exists sp, c, (w2' ++ s'). rewrite <- app_assoc. auto.
Qed.

End Adjacency.

(** *** The location pattern on concrete texts *)

Lemma basic_letters_are_not_spaces : @letters_are_not_spaces basic_unicode.
Proof.
  intros c. unfold city_letter, in_range. cbn [is_space basic_unicode].
  unfold in_range. intros L.
  repeat match goal with
         | |- context [N.leb ?a ?b] => destruct (N.leb_spec a b)
         end; cbn [andb orb]; try reflexivity.
  all: repeat match type of L with
              | context [N.leb ?a ?b] => destruct (N.leb_spec a b)
              end; cbn [andb orb] in L; try discriminate; lia.
Qed.

Lemma city_before_keyword_is_looked_up_witness :
  @Weather._process_weather_message basic_unicode plain_runtime base
    sunny_session (PyDict (event (PyStr (lit "北京天气"))))
  = @answer_for plain_runtime base sunny_session (lit "北京").
Proof.
  apply (@city_before_keyword_is_looked_up basic_unicode plain_runtime base
           sunny_session (event (PyStr (lit "北京天气")))
           (lit "北京") (lit "天气") (lit "unknown")).
  - exact basic_letters_are_not_spaces.
  - discriminate.
  - reflexivity.
  - left. reflexivity.
  - reflexivity.
  - reflexivity.
Defined.

Lemma city_behind_keyword_is_looked_up_witness :
  @Weather._process_weather_message basic_unicode plain_runtime base
    sunny_session (PyDict (event (PyStr (lit "weather  New"))))
  = @answer_for plain_runtime base sunny_session (lit "New").
Proof.
  apply (@city_behind_keyword_is_looked_up basic_unicode plain_runtime base
           sunny_session (event (PyStr (lit "weather  New")))
           (lit "weather") (lit "  ") (lit "New") (lit "unknown")).
  - exact basic_letters_are_not_spaces.
  - reflexivity.
  - right. reflexivity.
  - reflexivity.
  - discriminate.
  - reflexivity.
  - reflexivity.
  - reflexivity.
  - reflexivity.
Defined.

Lemma location_match_needs_adjacent_letter_witness :
  exists pre kw post,
    lit "how is 北京天气" = pre ++ kw ++ post /\ keyword kw /\
    ((exists pre' z, pre = pre' ++ [z] /\ city_letter z = true) \/
     (exists sp c post',
        post = sp ++ c :: post' /\
        forallb (@is_space basic_unicode) sp = true /\
        city_letter c = true)).
Proof.
  exact (@location_match_needs_adjacent_letter basic_unicode
           (lit "how is 北京天气") _ eq_refl).
Defined.

(** A name, a space and the keyword: the pattern finds nothing, and the
    handler asks for a city. *)
Example name_space_keyword_prompts :
  Re.search (@LOCATION_PATTERN basic_unicode) (lit "Beijing weather") = None
  /\
  @Weather.on_message basic_unicode plain_runtime base sunny_session
    (event (PyStr (lit "Beijing weather")))
  = Return (Some (@prompt_reply base)).
Proof. split; vm_compute; reflexivity. Qed.

(* ================================================================== *)
(** ** The shape of the geocoding body *)

Section GeocodingShape.
Context {R : Runtime} {S : Session}.

Lemma getitem0_of_truthy v e :
  truthy v = true -> getitem0 v = Raise e -> e = KeyError \/ e = TypeError.
Proof.
  destruct v as [| | | |s|l|d]; cbn [getitem0 truthy];
    try solve [intros _ E; inversion E; auto].
  - destruct s; [discriminate|]. intros _ E. inversion E.
  - destruct l; [discriminate|]. intros _ E. inversion E.
Qed.

Lemma contains_str_raises k v e :
  contains_str k v = Raise e -> e = TypeError.
Proof. destruct v; cbn [contains_str]; intros E; inversion E; auto. Qed.

Lemma iadd_str_raises v s e : iadd_str v s = Raise e -> e = TypeError.
Proof. destruct v; cbn [iadd_str]; intros E; inversion E; auto. Qed.

(** X19.  When the geocoding endpoint delivers a decoded body, whatever
    its status and its shape, the only exception that leaves
    [_get_coordinates] is [TypeError]: a missing key is caught, and a
    body that is true in a condition has a first element. *)
Theorem coordinates_escape_is_type_error
  (city : pystr) (status : Z) (data : pyval) (e : exn) :
  session_get Weather.geocoding_url (geo_params city)
  = Response status (Return data) ->
  Weather._get_coordinates city = Raise e ->
  e = TypeError.
Proof.
  intros G F. unfold Weather._get_coordinates in F. cbv zeta in F.
  fold (geo_params city) in F. rewrite G in F.
  destruct (negb (Z.eqb status 200)); [discriminate F|].
  unfold try_except in F.
  destruct (bind _ _) as [a|e0] eqn:Body; [discriminate|].
  destruct (existsb (issubclass e0) _) eqn:C; [discriminate|].
  inversion F; subst e0. clear F.
  assert (K : e = KeyError \/ e = TypeError -> e = TypeError).
  { intros [->| ->]; [discriminate C|reflexivity]. }
  cbn [bind] in Body.
  destruct (negb (truthy data)) eqn:T; [discriminate|].
  apply negb_false_iff in T.
  destruct (getitem0 data) as [location|x] eqn:E0; cbn [bind] in Body;
    [|inversion Body; subst x; exact (K (getitem0_of_truthy _ T E0))].
  destruct (getitem location (lit "name")) as [nm|x] eqn:E1;
    cbn [bind] in Body;
    [|inversion Body; subst x; exact (K (getitem_raises _ _ E1))].
  destruct (contains_str (lit "country") location) as [c|x] eqn:E2;
    cbn [bind] in Body;
    [|inversion Body; subst x; exact (contains_str_raises _ _ E2)].
  assert (D : forall x,
             (if c
              then country <- getitem location (lit "country") ;;
                   iadd_str nm (lit ", " ++ str country)
              else Return nm) = Raise x ->
             x = KeyError \/ x = TypeError).
  { intros x. destruct c; [|discriminate].
    destruct (getitem location (lit "country")) as [country|y] eqn:E3;
      cbn [bind]; intros E.
    - right. exact (iadd_str_raises _ _ E).
    - inversion E; subst y. exact (getitem_raises _ _ E3). }
  destruct (if c then _ else _) as [dn|x] eqn:E4; cbn [bind] in Body;
    [|inversion Body; subst x; exact (K (D _ eq_refl))].
  destruct (getitem location (lit "lat")) as [lat|x] eqn:E5;
    cbn [bind] in Body;
    [|inversion Body; subst x; exact (K (getitem_raises _ _ E5))].
  destruct (getitem location (lit "lon")) as [lon|x] eqn:E6;
    cbn [bind] in Body;
    [|inversion Body; subst x; exact (K (getitem_raises _ _ E6))].
  discriminate.
Qed.

End GeocodingShape.

Lemma coordinates_escape_is_type_error_witness :
  @session_get (session_of (Response 200 (Return (PyList [PyInt 7])))
                           (RequestFails OSError))
    Weather.geocoding_url
    (@geo_params (session_of (Response 200 (Return (PyList [PyInt 7])))
                             (RequestFails OSError)) (lit "Beijing"))
  = Response 200 (Return (PyList [PyInt 7])) /\
  TypeError = TypeError.
Proof.
  split; [reflexivity|].
  exact (@coordinates_escape_is_type_error plain_runtime
           (session_of (Response 200 (Return (PyList [PyInt 7])))
                       (RequestFails OSError))
           (lit "Beijing") 200 (PyList [PyInt 7]) TypeError
           eq_refl eq_refl).
Defined.

(* ================================================================== *)
(** ** From the message to the report *)

Section EndToEnd.
Context {U : Unicode} {R : Runtime} {B : PluginBase} {S : Session}.

(** X20.  A message whose text is the name of a city directly followed
    by a keyword, for which the geocoding endpoint has an entry and the
    weather endpoint a well-formed payload, is answered by [on_message]
    with the report of that payload, provided the host accepts the
    reply: the six lines under the display name of the entry, with the
    two temperatures rounded to an integer at most one half away, and
    behind them the visibility line exactly when the visibility is
    positive. *)
Theorem query_is_answered_with_report
  (note : list (pystr * pyval)) (city kw username : pystr)
  (loc : list (pystr * pyval)) (rest : list pyval) (nm : pystr)
  (lat lon : pyval) (d : list (pystr * pyval)) (w : snapshot) :
  letters_are_not_spaces ->
  city <> [] ->
  forallb city_letter city = true ->
  keyword kw ->
  text_of note = PyStr (city ++ kw) ->
  _extract_username (PyDict note) = Return username ->
  session_get Weather.geocoding_url (geo_params city)
  = Response 200 (Return (PyList (PyDict loc :: rest))) ->
  lookup (lit "name") loc = Some (PyStr nm) ->
  lookup (lit "lat") loc = Some lat ->
  lookup (lit "lon") loc = Some lon ->
  session_get Weather.base_url (weather_params lat lon)
  = Response 200 (Return (PyDict d)) ->
  well_formed d w ->
  exists (temp feels : Z) (tail : pystr),
    round (s_temp w) = Return temp /\ within_half (s_temp w) temp /\
    round (s_feels_like w) = Return feels /\
    within_half (s_feels_like w) feels /\
    match s_visibility w with
    | Some v =>
        if (0 <? v)%Z
        then exists whole tenth : N,
               (tenth < 10)%N /\
               ((v < 2 ^ 52)%Z ->
                (Z.abs (100 * (10 * Z.of_N whole + Z.of_N tenth) - v)
                 <= 50)%Z) /\
               tail = [10%N] ++ lit "👁️ 能见度: " ++
                      numeral (Z.of_N whole) ++ [46; 48 + tenth]%N ++
                      lit " km"
        else tail = []
    | None => tail = []
    end /\
    let display_name :=
      match lookup (lit "country") loc with
      | Some country => nm ++ lit ", " ++ str country
      | None => nm
      end in
    let r :=
      {| handled := true; plugin_name := name;
         response :=
           lit "🌤️ " ++ display_name ++ lit " 的天气:" ++ [10%N] ++
           lit "🌡️ 温度: " ++ numeral temp ++ lit "°C (体感 " ++
             numeral feels ++ lit "°C)" ++ [10%N] ++
           lit "💧 湿度: " ++ str (s_humidity w) ++ lit "%" ++ [10%N] ++
           lit "☁️ 天气: " ++ str (s_description w) ++ [10%N] ++
           lit "💨 风速: " ++ str (s_wind_speed w) ++ lit " m/s" ++
             [10%N] ++
           lit "🌊 气压: " ++ str (s_pressure w) ++ lit " hPa" ++ tail |} in
    Weather.on_message note
    = Return (if _validate_plugin_response r then Some r else None).
Proof.
  intros H N L K T X G Nm La Lo W WF.
  pose proof (@coordinates_found R S city loc rest nm lat lon G Nm La Lo)
    as C.
  pose proof (@weather_formatted R S city _ _ _ _ C W) as A.
  match type of C with
  | _ = Return (Some (_, _, PyStr ?x)) => set (dn := x) in *
  end.
  destruct (format_well_formed_text (PyStr dn) WF)
    as [temp [feels [tail [RT [HT [RF [HF [V F]]]]]]]].
  rewrite F in A.
  exists temp, feels, tail.
  split; [exact RT|]. split; [exact HT|].
  split; [exact RF|]. split; [exact HF|].
  split; [exact V|]. cbv zeta.
  unfold Weather.on_message.
  rewrite (@process_city_before_keyword U R B S note city kw username
             H N L K T X).
  unfold answer_for. rewrite A. cbn [bind].
  pose proof (formatted_nonempty (format_returns _ _ F)) as NE.
  assert (Sx : six_lines (PyStr dn) w temp feels ++ tail
               = lit "🌤️ " ++ dn ++ lit " 的天气:" ++ [10%N] ++
                 lit "🌡️ 温度: " ++ numeral temp ++ lit "°C (体感 " ++
                   numeral feels ++ lit "°C)" ++ [10%N] ++
                 lit "💧 湿度: " ++ str (s_humidity w) ++ lit "%" ++
                   [10%N] ++
                 lit "☁️ 天气: " ++ str (s_description w) ++ [10%N] ++
                 lit "💨 风速: " ++ str (s_wind_speed w) ++ lit " m/s" ++
                   [10%N] ++
                 lit "🌊 气压: " ++ str (s_pressure w) ++ lit " hPa" ++ tail).
  { unfold six_lines. cbn [str]. rewrite <- !app_assoc. reflexivity. }
  apply (or_else_some (Weather.apology city)) in NE. rewrite Sx in NE.
  cbn [try_except]. f_equal.
  match goal with
  | |- (if _ ?r1 then _ else _) = (if _ ?r2 then _ else _) =>
      assert (Er : r1 = r2) by (f_equal; rewrite Sx; exact NE)
  end.
  rewrite Er. reflexivity.
Qed.

End EndToEnd.

Lemma query_is_answered_with_report_witness :
  @Weather.on_message basic_unicode plain_runtime base sunny_session
    (event (PyStr (lit "北京天气")))
  = Return
      (Some {| handled := true; plugin_name := lit "Weather";
               response :=
                 lit "🌤️ Beijing, CN 的天气:" ++ [10%N] ++
                 lit "🌡️ 温度: 22°C (体感 20°C)" ++ [10%N] ++
                 lit "💧 湿度: 45%" ++ [10%N] ++
                 lit "☁️ 天气: 晴" ++ [10%N] ++
                 lit "💨 风速: 3 m/s" ++ [10%N] ++
                 lit "🌊 气压: 1013 hPa" ++ [10%N] ++
                 lit "👁️ 能见度: 10.0 km" |}).
Proof.
  destruct (@query_is_answered_with_report basic_unicode plain_runtime
              base sunny_session (event (PyStr (lit "北京天气")))
              (lit "北京") (lit "天气") (lit "unknown")
              beijing_entry [] (lit "Beijing") (dec 399 10) (dec 1164 10)
              sunny_entries sunny_fields
              basic_letters_are_not_spaces
              ltac:(discriminate) eq_refl (or_introl eq_refl)
              eq_refl eq_refl eq_refl eq_refl eq_refl eq_refl eq_refl
              sunny_well_formed)
    as [temp [feels [tail [RT [_ [RF [_ [V E]]]]]]]].
  vm_compute in RT. vm_compute in RF.
  injection RT as <-. injection RF as <-.
  cbn [s_visibility sunny_fields Z.ltb Z.compare] in V.
  destruct V as [whole [tenth [L [A ->]]]].
  specialize (A ltac:(reflexivity)).
  assert (W : whole = 10%N) by lia.
  assert (T : tenth = 0%N) by lia.
  subst whole tenth. cbv zeta in E. rewrite E. vm_compute. reflexivity.
Defined.
